(** * playscore_to_musicxml: archive inspection, conversion and merge

    A shallow embedding of [playscore_to_musicxml.py].  The program is
    file-system glue around three libraries (zipfile, ElementTree and
    music21); the libraries are an interface ([ExternalLibs]) and the
    program's own control flow is written out over an explicit file
    system, in a state-and-exception monad. *)

From stdpp Require Import gmap strings list fin_maps.
From Stdlib Require Import ZArith Ascii String.
From Stdlib.Strings Require Import Byte.

Open Scope string_scope.
Open Scope Z_scope.

(** ** Strings, as Python uses them here *)

Abbreviation bytes := (list byte).

(** [c in s] for a one-character [c]. *)
Fixpoint contains_char (c : ascii) (s : string) : bool :=
  match s with
  | EmptyString => false
  | String a s' => Ascii.eqb a c || contains_char c s'
  end.

(** [s.split(c, 1)[1]]: the text after the first [c]; [None] stands for
    the IndexError of a string without [c]. *)
Fixpoint split1_snd (c : ascii) (s : string) : option string :=
  match s with
  | EmptyString => None
  | String a s' => if Ascii.eqb a c then Some s' else split1_snd c s'
  end.

(** [str.lower()].  A tag or an entry name is kept as its UTF-8 bytes;
    only A-Z change.  The results are only ever compared with ASCII
    words that have no [k] in them, and [K] (U+212A) is the one
    non-ASCII character Python lowers to an ASCII letter, so the
    comparisons below agree with Python's. *)
Definition lower_ascii (a : ascii) : ascii :=
  let n := nat_of_ascii a in
  if ((65 <=? n)%nat && (n <=? 90)%nat)%bool then ascii_of_nat (n + 32) else a.

Fixpoint lower (s : string) : string :=
  match s with
  | EmptyString => EmptyString
  | String a s' => String (lower_ascii a) (lower s')
  end.

(** [s.endswith(suf)] *)
Definition endswith (s suf : string) : bool :=
  let n := String.length s in
  let k := String.length suf in
  ((k <=? n)%nat && String.eqb (substring (n - k) k s) suf)%bool.

(** ** The libraries the program calls *)

(** A ZIP archive as [zipfile] shows it: the entries in archive order. *)
Abbreviation archive := (list (string * bytes)).

(** The root element of a parsed XML document: its namespace name, when
    it has one, and its local name. *)
Record qname := QName { qname_ns : option string; qname_local : string }.

(** [root.tag] as ElementTree builds it (Clark notation). *)
Definition et_tag (q : qname) : string :=
  match qname_ns q with
  | Some uri => "{" ++ uri ++ "}" ++ qname_local q
  | None => qname_local q
  end.

(** Why the operating system may refuse to open a path for writing. *)
Inductive open_failure := NoSuchDirectory | PermissionDenied | NotADirectory.

Class ExternalLibs := {
  (** [zipfile.ZipFile(path, 'r')] on a file with these bytes; [None] is
      [BadZipFile].  An archive is given with the bytes [z.read]
      returns for each entry: an entry zipfile cannot read (an
      encrypted one, say, for which [z.read] raises RuntimeError) is
      outside the model. *)
  unzip : bytes -> option archive;
  (** [ET.fromstring(b.decode('utf-8', errors='replace'))]: the root of
      the document; [None] when the parser raises. *)
  xml_root : bytes -> option qname;
  (** whether [from music21 import ...] succeeds *)
  music21_installed : bool;
  (** music21 stream objects (Score, Part, ...) *)
  stream : Type;
  (** [converter.parse(name)] of a file with this suffix and content;
      [None] when it raises *)
  m21_parse : string -> bytes -> option stream;
  (** [s.parts] as a list; [None] when [s] has no such attribute *)
  m21_parts : stream -> option (list stream);
  (** [stream.Score()] after these elements were appended, in order *)
  m21_score : list stream -> stream;
  (** the MusicXML text [s.write('musicxml', ...)] produces; [None]
      when the serialisation raises *)
  m21_musicxml : stream -> option bytes;
  (** [os.path.join(dirname(abspath(f)) or getcwd(),
      splitext(basename(f))[0] + '.musicxml')] *)
  default_output : string -> string;
  (** the path [s.write('musicxml', fp=...)] writes: music21 adds
      .musicxml to a path that has no suffix, and a path that ends in
      .musicxml is written as it is *)
  m21_written_path : string -> string;
  m21_written_path_musicxml :
    forall p, endswith p ".musicxml" = true -> m21_written_path p = p;
  (** whether [open(path, 'wb')] is refused: the directory of the path
      is missing, is no directory, or may not be written.  The program
      makes and removes no directory, so the answer is the same
      throughout a call. *)
  open_refused : string -> option open_failure
}.

(** ** is_musicxml_bytes *)

Definition musicxml_roots : list string :=
  ["score-partwise"; "score-timewise"; "score"].

Definition is_musicxml_bytes `{ExternalLibs} (b : bytes) : bool :=
  match xml_root b with
  | Some root =>
      let tag := et_tag root in
      let tag :=
        if contains_char "}" tag then
          match split1_snd "}" tag with
          | Some t => Some t
          | None => None        (* IndexError, caught below *)
          end
        else Some tag in
      match tag with
      | Some tag => bool_decide (lower tag ∈ musicxml_roots)
      | None => false
      end
  | None => false               (* except Exception: return False *)
  end.

(** ** The file system and the effects of the program *)

(** Caller-visible paths map to directories or regular files.  A key
    of the map stands for one file: paths are taken in one spelling,
    and what the directories above a path allow is [open_refused].  The
    files [tempfile.NamedTemporaryFile] makes live in a name space of
    their own, so that a fresh temporary name never meets a caller's
    path; each keeps the suffix it was created with, from which music21
    chooses its parser. *)
Inductive node := Dir | File (content : bytes).

Record filesystem := FS {
  files : gmap string node;
  temps : gmap nat (string * bytes)
}.

Inductive exn :=
  | BadZipFile | FileNotFoundError | IsADirectoryError | KeyError
  | Music21Error | PermissionError | NotADirectoryError.

(** The exception of a refused [open]. *)
Definition open_exn (f : open_failure) : exn :=
  match f with
  | NoSuchDirectory => FileNotFoundError
  | PermissionDenied => PermissionError
  | NotADirectory => NotADirectoryError
  end.

Inductive result (A : Type) := Ok (a : A) | Raise (e : exn).
Arguments Ok {A} a.
Arguments Raise {A} e.

(** A computation runs on a file system and returns a value or raises. *)
Definition M (A : Type) : Type := filesystem -> filesystem * result A.

Definition ret {A} (a : A) : M A := fun fs => (fs, Ok a).
Definition raise {A} (e : exn) : M A := fun fs => (fs, Raise e).

Definition bind {A B} (m : M A) (k : A -> M B) : M B :=
  fun fs =>
    match m fs with
    | (fs1, Ok a) => k a fs1
    | (fs1, Raise e) => (fs1, Raise e)
    end.

Declare Scope py_scope.
Delimit Scope py_scope with py.
Notation "x <~ m ; k" := (bind m (fun x => k))
  (at level 100, m at next level, right associativity) : py_scope.
Notation "m ;; k" := (bind m (fun _ => k))
  (at level 100, right associativity) : py_scope.
Open Scope py_scope.

(** [try: body except E: handler], for the exceptions [catches] selects *)
Definition try_except {A} (catches : exn -> bool) (body : M A) (handler : M A) : M A :=
  fun fs =>
    match body fs with
    | (fs1, Raise e) => if catches e then handler fs1 else (fs1, Raise e)
    | r => r
    end.

Definition Exception : exn -> bool := fun _ => true.
Definition only_BadZipFile : exn -> bool :=
  fun e => match e with BadZipFile => true | _ => false end.

(** [try: body finally: cleanup] *)
Definition try_finally {A} (body : M A) (cleanup : M unit) : M A :=
  fun fs =>
    match body fs with
    | (fs1, r) =>
        match cleanup fs1 with
        | (fs2, Ok _) => (fs2, r)
        | (fs2, Raise e) => (fs2, Raise e)
        end
    end.

(** [for x in l: ...] whose body may [return]: [Some r] is a return
    with [r], [None] is the loop running to its end. *)
Fixpoint for_return {A R} (l : list A) (body : A -> M (option R)) : M (option R) :=
  match l with
  | [] => ret None
  | x :: l' =>
      r <~ body x;
      match r with
      | Some v => ret (Some v)
      | None => for_return l' body
      end
  end.

(** *** os, open, tempfile *)

Definition isfile (fs : filesystem) (p : string) : bool :=
  match files fs !! p with Some (File _) => true | _ => false end.

Definition exists_ (fs : filesystem) (p : string) : bool :=
  match files fs !! p with Some _ => true | None => false end.

(** [NamedTemporaryFile(delete=False, suffix=...)], written, flushed and
    closed; the result is [tf.name].  The model covers the runs in
    which the temporary directory takes the file and lets it be
    unlinked again.  A run in which writing the temporary file raises
    (for want of space, say) is outside it: the source writes the file
    before the [try] whose [finally] unlinks it, so that such a run
    leaves the file behind. *)
Definition NamedTemporaryFile (suffix : string) (b : bytes) : M nat :=
  fun fs =>
    let name := fresh (dom (temps fs)) in
    (FS (files fs) (<[name := (suffix, b)]> (temps fs)), Ok name).

(** [os.unlink(tf.name)]: a temporary file that is there is removed. *)
Definition os_unlink (name : nat) : M unit :=
  fun fs =>
    match temps fs !! name with
    | Some _ => (FS (files fs) (delete name (temps fs)), Ok tt)
    | None => (fs, Raise FileNotFoundError)
    end.

Section Libs.
Context `{ExternalLibs}.

(** [with open(path, 'wb') as f: f.write(b)]: [open] raises on a
    directory and on a path it is refused; otherwise the file is
    created or replaced. *)
Definition write_bytes (path : string) (b : bytes) : M unit :=
  fun fs =>
    match files fs !! path with
    | Some Dir => (fs, Raise IsADirectoryError)
    | _ =>
        match open_refused path with
        | Some f => (fs, Raise (open_exn f))
        | None => (FS (<[path := File b]> (files fs)) (temps fs), Ok tt)
        end
    end.

(** Whether [open(path, 'wb')] goes through in this state. *)
Definition can_write (fs : filesystem) (path : string) : bool :=
  match files fs !! path with
  | Some Dir => false
  | _ => match open_refused path with Some _ => false | None => true end
  end.

(** *** zipfile *)

Definition ZipFile (path : string) : M archive :=
  fun fs =>
    match files fs !! path with
    | None => (fs, Raise FileNotFoundError)
    | Some Dir => (fs, Raise IsADirectoryError)
    | Some (File b) =>
        match unzip b with
        | Some z => (fs, Ok z)
        | None => (fs, Raise BadZipFile)
        end
    end.

Definition namelist (z : archive) : list string := z.*1.

(** zipfile's [NameToInfo] dict: filled entry by entry, so that a later
    entry replaces an earlier one of the same name. *)
Definition NameToInfo (z : archive) : gmap string bytes :=
  foldl (fun m e => <[e.1 := e.2]> m) ∅ z.

(** [z.read(name)]: the bytes of the entry, KeyError for a name the
    archive does not have. *)
Definition zread (z : archive) (name : string) : M bytes :=
  match NameToInfo z !! name with
  | Some b => ret b
  | None => raise KeyError
  end.

(** *** music21 *)

(** [converter.parse(tf_name)] *)
Definition converter_parse (tf_name : nat) : M stream :=
  fun fs =>
    match temps fs !! tf_name with
    | None => (fs, Raise FileNotFoundError)
    | Some (suffix, b) =>
        match m21_parse suffix b with
        | Some s => (fs, Ok s)
        | None => (fs, Raise Music21Error)
        end
    end.

(** [s.write('musicxml', fp=out_path)]: the score is serialised, then
    written to the path music21 makes of [out_path]. *)
Definition stream_write (s : stream) (out_path : string) : M unit :=
  match m21_musicxml s with
  | Some x => write_bytes (m21_written_path out_path) x
  | None => raise Music21Error
  end.

(** ** The program

    The [verbose] argument of the source only selects what is printed;
    the standard streams are not modelled and the argument is left
    out. *)

Definition convert_mid_to_musicxml (mid_bytes : bytes) (out_path : string) : M bool :=
  if negb music21_installed then ret false
  else
    tf_name <~ NamedTemporaryFile ".mid" mid_bytes;
    try_finally
      (try_except Exception
         (score <~ converter_parse tf_name;
          stream_write score out_path;;
          ret true)
         (ret false))
      (try_except Exception (os_unlink tf_name) (ret tt)).

(** The block the source repeats for each payload it hands to music21:
    write a temporary file, parse it, unlink it in a [finally]. *)
Definition parse_through_tempfile (suffix : string) (b : bytes) : M stream :=
  tf_name <~ NamedTemporaryFile suffix b;
  try_finally
    (converter_parse tf_name)
    (try_except Exception (os_unlink tf_name) (ret tt)).

Definition parse_playscore_to_score (path : string) : M (option stream) :=
  if negb music21_installed then ret None
  else
    try_except only_BadZipFile
      (z <~ ZipFile path;
       let names := namelist z in
       r <~ (if bool_decide ("doc.xml" ∈ names) then
               b <~ zread z "doc.xml";
               if is_musicxml_bytes b then
                 score <~ parse_through_tempfile ".musicxml" b;
                 ret (Some score)
               else ret None
             else ret None);
       match r with
       | Some score => ret (Some score)
       | None =>
           if bool_decide ("doc.mid" ∈ names) then
             mb <~ zread z "doc.mid";
             score <~ parse_through_tempfile ".mid" mb;
             ret (Some score)
           else
             for_return names (fun name =>
               if endswith (lower name) ".xml" then
                 b <~ zread z name;
                 if is_musicxml_bytes b then
                   score <~ parse_through_tempfile ".musicxml" b;
                   ret (Some score)
                 else ret None
               else ret None)
             (* the loop ran out: the function ends with [return None] *)
       end)
      (ret None).

(** A value of type [option (option bytes)] is a [return] with that
    value ([Some]) or no return yet ([None]). *)
Definition extract_musicxml_bytes_from_playscore (path : string) : M (option bytes) :=
  try_except only_BadZipFile
    (z <~ ZipFile path;
     let names := namelist z in
     r <~ (if bool_decide ("doc.xml" ∈ names) then
             b <~ zread z "doc.xml";
             if is_musicxml_bytes b then ret (Some b) else ret None
           else ret None);
     match r with
     | Some b => ret (Some b)
     | None =>
         if bool_decide ("doc.mid" ∈ names) then ret None
         else
           for_return names (fun name =>
             if endswith (lower name) ".xml" then
               b <~ zread z name;
               if is_musicxml_bytes b then ret (Some b) else ret None
             else ret None)
     end)
    (ret None).

Definition process_single_file (inp out : string) (overwrite : bool) : M Z :=
  fun fs =>
    if negb (isfile fs inp) then (fs, Ok 2)
    else if exists_ fs out && negb overwrite then (fs, Ok 0)
    else
      try_except only_BadZipFile
        (z <~ ZipFile inp;
         let names := namelist z in
         r <~ (if bool_decide ("doc.xml" ∈ names) then
                 b <~ zread z "doc.xml";
                 if is_musicxml_bytes b then
                   write_bytes out b;;
                   ret (Some 0)
                 else ret None
               else ret None);
         match r with
         | Some rc => ret rc
         | None =>
             if bool_decide ("doc.mid" ∈ names) then
               midb <~ zread z "doc.mid";
               ok <~ convert_mid_to_musicxml midb out;
               if ok then ret 0 else ret 3
             else
               r <~ for_return names (fun name =>
                      if endswith (lower name) ".xml" then
                        b <~ zread z name;
                        if is_musicxml_bytes b then
                          write_bytes out b;;
                          ret (Some 0)
                        else ret None
                      else ret None);
               match r with
               | Some rc => ret rc
               | None => ret 4
               end
         end)
        (ret 2)
        fs.

(** The first loop of [merge_files]: [parsed_scores]. *)
Fixpoint parse_inputs (inputs : list string) (parsed_scores : list (string * stream))
  : M (list (string * stream)) :=
  match inputs with
  | [] => ret parsed_scores
  | f :: inputs' =>
      s <~ parse_playscore_to_score f;
      match s with
      | Some s => parse_inputs inputs' (parsed_scores ++ [(f, s)])%list
      | None => parse_inputs inputs' parsed_scores
      end
  end.

(** The second loop: the elements appended to [combined], in order, and
    [part_count]. *)
Definition append_parts (acc : list stream * nat) (ps : list stream) : list stream * nat :=
  foldl (fun '(combined, part_count) p => ((combined ++ [p])%list, S part_count)) acc ps.

Fixpoint combine (parsed_scores : list (string * stream)) (acc : list stream * nat)
  : list stream * nat :=
  match parsed_scores with
  | [] => acc
  | (fname, s) :: rest =>
      match m21_parts s with
      | Some ps =>
          if (0 <? List.length ps)%nat then combine rest (append_parts acc ps)
          else combine rest ((acc.1 ++ [s])%list, S acc.2)
      | None => combine rest ((acc.1 ++ [s])%list, S acc.2)
      end
  end.

Definition merge_files (inputs : list string) (out_path : string) (overwrite : bool) : M Z :=
  fun fs =>
    if exists_ fs out_path && negb overwrite then (fs, Ok 0)
    else if negb music21_installed then (fs, Ok 3)
    else
      (parsed_scores <~ parse_inputs inputs [];
       match parsed_scores with
       | [] => ret 4
       | _ =>
           let '(combined, part_count) := combine parsed_scores ([], 0%nat) in
           try_except Exception
             (stream_write (m21_score combined) out_path;;
              ret 0)
             (ret 5)
       end) fs.

(** The non-merge branch of [main]: one conversion per input, and the
    status handed to [sys.exit]. [files] is the whole list, [todo] what
    the loop has still to visit. *)
Definition truthy (s : option string) : bool :=
  match s with
  | Some s => negb (String.eqb s "")
  | None => false
  end.

Fixpoint main_loop (files todo : list string) (output : option string)
    (overwrite : bool) (exit_code : Z) : M Z :=
  match todo with
  | [] => ret exit_code
  | f :: todo' =>
      let out :=
        if truthy output && (List.length files =? 1)%nat
        then default "" output
        else default_output f in
      rc <~ process_single_file f out overwrite;
      main_loop files todo' output overwrite (if negb (rc =? 0) then rc else exit_code)
  end.

Definition main_batch (files : list string) (output : option string) (overwrite : bool) : M Z :=
  main_loop files files output overwrite 0.

End Libs.

(** ** The detection order, as the specification words it

    These definitions follow the specification's rule list, not the
    code; the theorems compare the two. *)

Inductive Classification :=
  | DirectMusicXML (b : bytes)
  | MidiPayload (b : bytes)
  | Unrecognized.

Section Inspector.
Context `{ExternalLibs}.

(** The bytes of the entry called [name] (what zipfile reads for it). *)
Definition entry_bytes (z : archive) (name : string) : option bytes :=
  NameToInfo z !! name.

(** Rule 1: an entry literally named doc.xml that is MusicXML. *)
Definition rule_doc_xml (z : archive) : option Classification :=
  if bool_decide ("doc.xml" ∈ namelist z) then
    match entry_bytes z "doc.xml" with
    | Some b => if is_musicxml_bytes b then Some (DirectMusicXML b) else None
    | None => None
    end
  else None.

(** Rule 2: an entry literally named doc.mid, taken as it is. *)
Definition rule_doc_mid (z : archive) : option Classification :=
  if bool_decide ("doc.mid" ∈ namelist z) then
    MidiPayload <$> entry_bytes z "doc.mid"
  else None.

(** Rule 3: the first of the remaining entries, in archive order, whose
    name ends in .xml whatever its case and whose bytes are MusicXML. *)
Definition remaining_entries (z : archive) : list string :=
  filter (fun n => n ≠ "doc.xml" ∧ n ≠ "doc.mid") (namelist z).

Definition musicxml_entry (z : archive) (name : string) : option bytes :=
  if endswith (lower name) ".xml" then
    match entry_bytes z name with
    | Some b => if is_musicxml_bytes b then Some b else None
    | None => None
    end
  else None.

Fixpoint first_match {A B} (f : A -> option B) (l : list A) : option B :=
  match l with
  | [] => None
  | x :: l' => match f x with Some y => Some y | None => first_match f l' end
  end.

Definition rule_any_xml (z : archive) : option Classification :=
  DirectMusicXML <$> first_match (musicxml_entry z) (remaining_entries z).

(** First match wins; no match is Unrecognized. *)
Definition inspect (z : archive) : Classification :=
  default Unrecognized
    (first_match (fun rule : archive -> option Classification => rule z)
       [rule_doc_xml; rule_doc_mid; rule_any_xml]).

(** What the specification has each caller do with a classification:
    the converter writes MusicXML through or converts MIDI, the merge
    engine hands either payload to the parser. *)
Definition convert_classified (out : string) (c : Classification) : M Z :=
  match c with
  | DirectMusicXML b => write_bytes out b;; ret 0
  | MidiPayload mb =>
      ok <~ convert_mid_to_musicxml mb out;
      if ok then ret 0 else ret 3
  | Unrecognized => ret 4
  end.

Definition parse_classified (c : Classification) : M (option stream) :=
  match c with
  | DirectMusicXML b => score <~ parse_through_tempfile ".musicxml" b; ret (Some score)
  | MidiPayload mb => score <~ parse_through_tempfile ".mid" mb; ret (Some score)
  | Unrecognized => ret None
  end.

Definition extract_classified (c : Classification) : option bytes :=
  match c with
  | DirectMusicXML b => Some b
  | _ => None
  end.

(** What each source contributes to the combined score. *)
Definition contribution (s : stream) : list stream :=
  match m21_parts s with
  | Some (p :: ps) => p :: ps
  | _ => [s]
  end.

(** The return codes of the conversions of a batch, call after call. *)
Fixpoint batch_codes (files todo : list string) (output : option string)
    (overwrite : bool) : M (list Z) :=
  match todo with
  | [] => ret []
  | f :: todo' =>
      let out :=
        if truthy output && (List.length files =? 1)%nat
        then default "" output
        else default_output f in
      rc <~ process_single_file f out overwrite;
      rcs <~ batch_codes files todo' output overwrite;
      ret (rc :: rcs)
  end.

(** An input the merge engine cannot use: a corrupt archive, or a valid
    one in which no payload is recognized. *)
Definition unresolvable (fs : filesystem) (f : string) : Prop :=
  exists c, files fs !! f = Some (File c) ∧
    (unzip c = None ∨ exists z, unzip c = Some z ∧ inspect z = Unrecognized).

(** The score an input resolves to, when it does. *)
Definition resolved (fs : filesystem) (f : string) : option (string * stream) :=
  match (parse_playscore_to_score f fs).2 with
  | Ok (Some s) => Some (f, s)
  | _ => None
  end.

(** A batch status that reports the worst outcome would be computed
    from the codes by a function that does not look at their order. *)
Definition reports_worst (worst : list Z -> Z) : Prop :=
  forall files output overwrite fs rcs code,
    (batch_codes files files output overwrite fs).2 = Ok rcs ->
    (main_batch files output overwrite fs).2 = Ok code ->
    code = worst rcs.

End Inspector.

(** The code of the last conversion that failed; 0 when none did. *)
Definition last_failure (rcs : list Z) : Z :=
  default 0 (last (filter (fun rc => rc ≠ 0) rcs)).

Definition order_blind (worst : list Z -> Z) : Prop :=
  forall l l', l ≡ₚ l' -> worst l = worst l'.

(** Case-insensitive equality of two names. *)
Fixpoint eq_nocase (s t : string) : Prop :=
  match s, t with
  | EmptyString, EmptyString => True
  | String a s', String b t' => lower_ascii a = lower_ascii b ∧ eq_nocase s' t'
  | _, _ => False
  end.

(** A root whose namespace name and local name are free of [}]: every
    XML name is, and so is every URI reference (RFC 3986). *)
Definition brace_free (q : qname) : Prop :=
  contains_char "}" (qname_local q) = false ∧
  match qname_ns q with
  | Some uri => contains_char "}" uri = false
  | None => True
  end.

(** The root-element test in the specification's words: the document
    parsed, and its root's local name is one of the three, whatever the
    case. *)
Definition root_is_musicxml (r : option qname) : Prop :=
  match r with
  | Some q => exists n, n ∈ musicxml_roots ∧ eq_nocase (qname_local q) n
  | None => False
  end.

Definition parsed_brace_free (r : option qname) : Prop :=
  match r with
  | Some q => brace_free q
  | None => True
  end.

(** ** What a computation may do

    [guarded R E m]: whatever its outcome, [m] leaves the file system
    in a state [R]-related to the one it found, and it raises only
    exceptions that [E] allows. *)
Definition guarded {A} (R : relation filesystem) (E : exn -> Prop) (m : M A) : Prop :=
  forall fs, R fs (m fs).1 ∧ forall e, (m fs).2 = Raise e -> E e.

(** The temporary files are as they were. *)
Definition same_temps : relation filesystem :=
  fun fs fs' => temps fs' = temps fs.

Abbreviation contained := (guarded same_temps).
Abbreviation read_only := (guarded eq).

Definition not_BadZipFile (e : exn) : Prop := only_BadZipFile e = false.
Definition any_exn : exn -> Prop := fun _ => True.
Definition no_exn : exn -> Prop := fun _ => False.

(** ** A small world to run the program in *)

Module Sample.

Definition B (s : string) : bytes := list_byte_of_string s.

Definition holds (b : bytes) (s : string) : bool :=
  String.eqb (string_of_list_byte b) s.

#[local] Set Warnings "-register-all".
Inductive sample_stream :=
  | SPart (name : string)
  | SScore (elements : list sample_stream).

Definition sample_unzip (b : bytes) : option archive :=
  if holds b "PK:direct" then Some [("doc.xml", B "<score-partwise/>")]
  else if holds b "PK:two" then
    Some [("doc.xml", B "<score-partwise>two</score-partwise>"); ("doc.mid", B "MThd:ok")]
  else if holds b "PK:midi" then Some [("doc.xml", B "<foo/>"); ("doc.mid", B "MThd:ok")]
  else if holds b "PK:flat" then Some [("doc.mid", B "MThd:flat")]
  else if holds b "PK:badmidi" then Some [("doc.mid", B "garbage")]
  else if holds b "PK:fallback" then
    Some [("README.txt", B "hello"); ("a.xml", B "<foo/>");
          ("inner/Song.XML", B "<Score-Partwise xmlns='urn:m'/>")]
  else if holds b "PK:nothing" then Some [("notes.txt", B "hello"); ("a.xml", B "<foo/>")]
  else None.

Definition sample_xml_root (b : bytes) : option qname :=
  if holds b "<score-partwise/>" then Some (QName None "score-partwise")
  else if holds b "<score-partwise>two</score-partwise>" then Some (QName None "score-partwise")
  else if holds b "<Score-Partwise xmlns='urn:m'/>" then Some (QName (Some "urn:m") "Score-Partwise")
  else if holds b "<foo/>" then Some (QName None "foo")
  else None.

Definition sample_parse (suffix : string) (b : bytes) : option sample_stream :=
  if String.eqb suffix ".musicxml" then
    if holds b "<score-partwise/>" then Some (SScore [SPart "P1"])
    else if holds b "<score-partwise>two</score-partwise>" then
      Some (SScore [SPart "A1"; SPart "A2"])
    else if holds b "<Score-Partwise xmlns='urn:m'/>" then Some (SScore [SPart "S1"])
    else None
  else if String.eqb suffix ".mid" then
    if holds b "MThd:ok" then Some (SScore [SPart "M1"])
    else if holds b "MThd:flat" then Some (SScore [])
    else None
  else None.

Definition sample_parts (s : sample_stream) : option (list sample_stream) :=
  match s with
  | SScore es =>
      Some (List.filter (fun e => match e with SPart _ => true | _ => false end) es)
  | SPart _ => None
  end.

Fixpoint render (s : sample_stream) : string :=
  match s with
  | SPart n => "<part id='" ++ n ++ "'/>"
  | SScore es =>
      "<score-partwise>" ++
      (fix go (l : list sample_stream) : string :=
         match l with
         | [] => ""
         | e :: l' => render e ++ go l'
         end) es ++
      "</score-partwise>"
  end.

(** Paths with one of the suffixes of the examples are kept, the
    others get .musicxml. *)
Definition sample_written_path (p : string) : string :=
  if endswith p ".musicxml" then p
  else if endswith p ".xml" || endswith p ".playscore" then p
  else p ++ ".musicxml".

(** Nothing can be created under nodir/, a directory that is not
    there. *)
Definition sample_open_refused (p : string) : option open_failure :=
  if String.prefix "nodir/" p then Some NoSuchDirectory else None.

Definition libs (installed : bool) : ExternalLibs := {|
  unzip := sample_unzip;
  xml_root := sample_xml_root;
  music21_installed := installed;
  stream := sample_stream;
  m21_parse := sample_parse;
  m21_parts := sample_parts;
  m21_score := SScore;
  m21_musicxml := fun s => Some (B (render s));
  default_output := fun f => f ++ ".musicxml";
  m21_written_path := sample_written_path;
  m21_written_path_musicxml := fun p Hp =>
    @eq_ind_r bool true
      (fun e : bool =>
         (if e then p
          else if endswith p ".xml" || endswith p ".playscore" then p
          else p ++ ".musicxml") = p)
      eq_refl (endswith p ".musicxml") Hp;
  open_refused := sample_open_refused
|}.

Definition disk : filesystem :=
  FS (list_to_map
        [("direct.playscore", File (B "PK:direct"));
         ("two.playscore", File (B "PK:two"));
         ("midi.playscore", File (B "PK:midi"));
         ("flat.playscore", File (B "PK:flat"));
         ("badmidi.playscore", File (B "PK:badmidi"));
         ("fallback.playscore", File (B "PK:fallback"));
         ("nothing.playscore", File (B "PK:nothing"));
         ("corrupt.playscore", File (B "not a zip"));
         ("old.musicxml", File (B "<score-partwise>old</score-partwise>"));
         ("folder", Dir)])
     ∅.

End Sample.

(** ** The callers

    [main], from the point where the list of input paths is known (the
    command line's, or the one the file dialogs gave), and the loop of
    [convert] in app.py that converts the uploads one by one. *)

Section Callers.
Context `{ExternalLibs}.

(** [os.path.join(os.path.dirname(os.path.abspath(files[0])),
    'merged.musicxml')], as a function of [files[0]] *)
Variable merged_output : string -> string.


(** [os.path.join(tmpdir, os.path.splitext(os.path.basename(inp))[0])],
    as a function of [inp]: the output path of an upload is this with
    '.musicxml' put after it. *)
Variable tmp_output : string -> string.

(** The loop of [convert] that fills [outputs]. *)
Fixpoint convert_outputs (saved outputs : list string) : M (list string) :=
  match saved with
  | [] => ret outputs
  | inp :: saved' =>
      let out := tmp_output inp ++ ".musicxml" in
      rc <~ process_single_file inp out true;
      fun fs =>
        convert_outputs saved'
          (if (rc =? 0) && exists_ fs out then (outputs ++ [out])%list else outputs)
          fs
  end.

(** The same loop without the test of [os.path.exists(out)]. *)
Fixpoint convert_successes (saved outputs : list string) : M (list string) :=
  match saved with
  | [] => ret outputs
  | inp :: saved' =>
      let out := tmp_output inp ++ ".musicxml" in
      rc <~ process_single_file inp out true;
      convert_successes saved'
        (if rc =? 0 then (outputs ++ [out])%list else outputs)
  end.

End Callers.

(** The number of parts a source adds to the combined score. *)
Definition parts_added `{ExternalLibs} (s : stream) : nat :=
  match m21_parts s with
  | Some ps => if (0 <? List.length ps)%nat then List.length ps else 1%nat
  | None => 1%nat
  end.

(** * Properties *)

(** ** Strings *)

Lemma contains_char_app c s t :
  contains_char c (s ++ t) = contains_char c s || contains_char c t.
Proof.
  induction s as [|a s IH]; simpl; [done|].
  rewrite IH. by destruct (Ascii.eqb a c).
Qed.

Lemma split1_snd_app_l c s t :
  contains_char c s = false ->
  split1_snd c (s ++ String c t) = Some t.
Proof.
  induction s as [|a s IH]; simpl.
  - by rewrite Ascii.eqb_refl.
  - destruct (Ascii.eqb a c); [done|]. exact IH.
Qed.

Lemma eq_nocase_lower s t : eq_nocase s t <-> lower s = lower t.
Proof.
  revert t. induction s as [|a s IH]; intros [|b t]; simpl; try (split; [tauto | discriminate]).
  - split; done.
  - rewrite IH. split.
    + intros [-> ->]. done.
    + intros Heq. by injection Heq.
Qed.

Lemma lower_musicxml_roots r : r ∈ musicxml_roots -> lower r = r.
Proof.
  unfold musicxml_roots. rewrite !elem_of_cons, elem_of_nil.
  intros [->|[->|[->|[]]]]; reflexivity.
Qed.

Lemma lower_in_roots s :
  lower s ∈ musicxml_roots <-> exists r, r ∈ musicxml_roots ∧ eq_nocase s r.
Proof.
  split.
  - intros Hin. exists (lower s). split; [done|].
    apply eq_nocase_lower. symmetry. by apply lower_musicxml_roots.
  - intros (r & Hr & Heq). apply eq_nocase_lower in Heq.
    rewrite Heq, lower_musicxml_roots; done.
Qed.

(** The local name of a root is what the code compares, once the
    namespace is cut off. *)
Lemma contains_char_mid c s t : contains_char c (s ++ String c t) = true.
Proof.
  rewrite contains_char_app. simpl. by rewrite Ascii.eqb_refl, orb_true_r.
Qed.

Lemma strip_namespace q :
  brace_free q ->
  (if contains_char "}" (et_tag q) then split1_snd "}" (et_tag q) else Some (et_tag q))
  = Some (qname_local q).
Proof.
  destruct q as [[uri|] local]; intros [Hl Hu]; simpl in Hl, Hu.
  - change (et_tag (QName (Some uri) local))
      with (String "{" (uri ++ String "}" local)).
    assert (contains_char "}" (String "{" (uri ++ String "}" local)) = true) as ->.
    { apply (contains_char_mid "}" (String "{" uri) local). }
    change (split1_snd "}" (String "{" (uri ++ String "}" local)))
      with (split1_snd "}" (uri ++ String "}" local)).
    by apply split1_snd_app_l.
  - change (et_tag (QName None local)) with local. by rewrite Hl.
Qed.

Lemma string_length_app s t :
  String.length (s ++ t) = (String.length s + String.length t)%nat.
Proof. induction s as [|a s IH]; [done|]. simpl. by rewrite IH. Qed.

Lemma substring_whole t : substring 0 (String.length t) t = t.
Proof. induction t as [|a t IH]; [done|]. simpl. by rewrite IH. Qed.

Lemma substring_app_r s t :
  substring (String.length s) (String.length t) (s ++ t) = t.
Proof. induction s as [|a s IH]; [apply substring_whole | exact IH]. Qed.

(** A string ends with the suffix put after it. *)
Lemma endswith_app s suf : endswith (s ++ suf) suf = true.
Proof.
  unfold endswith. rewrite string_length_app.
  replace (String.length s + String.length suf - String.length suf)%nat
    with (String.length s) by lia.
  rewrite substring_app_r, String.eqb_refl, andb_true_r.
  apply Nat.leb_le. lia.
Qed.

Section RootTest.
Context `{ExternalLibs}.

Lemma is_musicxml_bytes_local b q :
  xml_root b = Some q -> brace_free q ->
  is_musicxml_bytes b = bool_decide (lower (qname_local q) ∈ musicxml_roots).
Proof.
  intros Hroot Hq. unfold is_musicxml_bytes. rewrite Hroot.
  pose proof (strip_namespace q Hq) as Hs.
  destruct (contains_char "}" (et_tag q)).
  - by rewrite Hs.
  - by injection Hs as ->.
Qed.

Lemma is_musicxml_bytes_malformed b :
  xml_root b = None -> is_musicxml_bytes b = false.
Proof. intros Hroot. unfold is_musicxml_bytes. by rewrite Hroot. Qed.

End RootTest.

(** ** The monad *)

Lemma bind_Ok {A B} (m : M A) (k : A -> M B) fs fs1 a :
  m fs = (fs1, Ok a) -> bind m k fs = k a fs1.
Proof. intros Hm. unfold bind. by rewrite Hm. Qed.

Lemma bind_Raise {A B} (m : M A) (k : A -> M B) fs fs1 e :
  m fs = (fs1, Raise e) -> bind m k fs = (fs1, Raise e).
Proof. intros Hm. unfold bind. by rewrite Hm. Qed.

Lemma try_except_through {A} catches (body handler : M A) fs :
  (forall e, (body fs).2 = Raise e -> catches e = false) ->
  try_except catches body handler fs = body fs.
Proof.
  intros Hno. unfold try_except.
  destruct (body fs) as [fs1 [a|e]] eqn:Hb; [done|].
  by rewrite (Hno e).
Qed.

#[local] Instance same_temps_refl : Reflexive same_temps.
Proof. by intros fs. Qed.

#[local] Instance same_temps_trans : Transitive same_temps.
Proof. intros fs1 fs2 fs3 H12 H23. unfold same_temps in *. by rewrite H23. Qed.

Section Guarded.
Context (R : relation filesystem) `{!Reflexive R, !Transitive R}.

Lemma guarded_ret {A} E (a : A) : guarded R E (ret a).
Proof. intros fs. split; [done|]. intros e He. discriminate He. Qed.

Lemma guarded_raise {A} (E : exn -> Prop) e : E e -> guarded R E (raise e : M A).
Proof. intros HE fs. split; [done|]. intros e' He. by injection He as <-. Qed.

Lemma guarded_weaken {A} (E E' : exn -> Prop) (m : M A) :
  (forall e, E e -> E' e) -> guarded R E m -> guarded R E' m.
Proof. intros HEE Hm fs. destruct (Hm fs) as [Ht He]. split; [done|]. eauto. Qed.

Lemma guarded_read_only {A} E (m : M A) : read_only E m -> guarded R E m.
Proof. intros Hm fs. destruct (Hm fs) as [<- He]. done. Qed.

Lemma guarded_bind {A B} E (m : M A) (k : A -> M B) :
  guarded R E m -> (forall a, guarded R E (k a)) -> guarded R E (bind m k).
Proof.
  intros Hm Hk fs. unfold bind.
  destruct (Hm fs) as [Ht He]. destruct (m fs) as [fs1 [a|e]]; simpl in *.
  - destruct (Hk a fs1) as [Ht' He']. split; [by etrans | exact He'].
  - split; [done|]. intros e' Heq. injection Heq as <-. by apply He.
Qed.

Lemma guarded_try_except {A} (E E' : exn -> Prop) catches (body handler : M A) :
  guarded R E body -> guarded R E' handler ->
  guarded R (fun e => (E e ∧ catches e = false) ∨ E' e)
    (try_except catches body handler).
Proof.
  intros Hb Hh fs. unfold try_except.
  destruct (Hb fs) as [Ht He]. destruct (body fs) as [fs1 [a|e]]; simpl in *.
  - split; [done|]. intros e Heq. discriminate Heq.
  - destruct (catches e) eqn:Hc.
    + destruct (Hh fs1) as [Ht' He']. split; [by etrans|]. eauto.
    + split; [done|]. intros e' Heq. injection Heq as <-. left. eauto.
Qed.

(** [except Exception] lets nothing through. *)
Lemma guarded_try_except_Exception {A} (E E' : exn -> Prop) (body handler : M A) :
  guarded R E body -> guarded R E' handler ->
  guarded R E' (try_except Exception body handler).
Proof.
  intros Hb Hh. eapply guarded_weaken; [|by apply guarded_try_except].
  intros e [[_ Hc]|He]; [discriminate Hc | done].
Qed.

(** [except BadZipFile] lets everything else through. *)
Lemma guarded_try_except_BadZipFile {A} (E : exn -> Prop) (body handler : M A) :
  guarded R E body -> guarded R not_BadZipFile handler ->
  guarded R not_BadZipFile (try_except only_BadZipFile body handler).
Proof.
  intros Hb Hh. eapply guarded_weaken; [|by apply guarded_try_except].
  intros e [[_ Hc]|He]; done.
Qed.

Lemma guarded_for_return {A B} E (l : list A) (body : A -> M (option B)) :
  (forall x, guarded R E (body x)) -> guarded R E (for_return l body).
Proof.
  intros Hbody. induction l as [|x l IH]; simpl.
  - apply guarded_ret.
  - apply guarded_bind; [done|]. intros [v|]; [apply guarded_ret | done].
Qed.

End Guarded.

Lemma open_exn_not_BadZipFile f : not_BadZipFile (open_exn f).
Proof. by destruct f. Qed.

Lemma contained_write_bytes `{ExternalLibs} path b :
  contained not_BadZipFile (write_bytes path b).
Proof.
  intros fs. unfold write_bytes.
  destruct (files fs !! path) as [[|c]|]; [| destruct (open_refused path) ..];
    simpl; split; try done; intros e He; injection He as <-;
    try done; apply open_exn_not_BadZipFile.
Qed.

(** ** Temporary files *)

Lemma NamedTemporaryFile_fresh suffix b fs :
  exists name,
    NamedTemporaryFile suffix b fs
      = (FS (files fs) (<[name := (suffix, b)]> (temps fs)), Ok name)
    ∧ temps fs !! name = None.
Proof.
  exists (fresh (dom (temps fs))). split; [done|].
  apply not_elem_of_dom, is_fresh.
Qed.

(** A temporary file that is unlinked in a [finally] is gone when the
    block is left, however it is left. *)
Lemma scoped_tempfile {A} E suffix b (body : nat -> M A) :
  (forall name, contained E (body name)) ->
  contained E
    (tf_name <~ NamedTemporaryFile suffix b;
     try_finally (body tf_name)
       (try_except Exception (os_unlink tf_name) (ret tt))).
Proof.
  intros Hbody fs.
  destruct (NamedTemporaryFile_fresh suffix b fs) as (name & Hmk & Hfresh).
  rewrite (bind_Ok _ _ _ _ _ Hmk).
  unfold try_finally.
  destruct (Hbody name (FS (files fs) (<[name := (suffix, b)]> (temps fs))))
    as [Ht He].
  destruct (body name _) as [fs1 r]; unfold same_temps in Ht; simpl in Ht, He.
  unfold try_except, os_unlink. rewrite Ht, lookup_insert_eq. simpl.
  split; [|exact He].
  by apply delete_insert_id.
Qed.

(** When the block only reads, the file system is back as it was. *)
Lemma scoped_tempfile_read_only {A} E suffix b (body : nat -> M A) :
  (forall name, read_only E (body name)) ->
  read_only E
    (tf_name <~ NamedTemporaryFile suffix b;
     try_finally (body tf_name)
       (try_except Exception (os_unlink tf_name) (ret tt))).
Proof.
  intros Hbody fs.
  destruct (NamedTemporaryFile_fresh suffix b fs) as (name & Hmk & Hfresh).
  rewrite (bind_Ok _ _ _ _ _ Hmk).
  unfold try_finally.
  destruct (Hbody name (FS (files fs) (<[name := (suffix, b)]> (temps fs))))
    as [Ht He].
  destruct (body name _) as [fs1 r]; simpl in Ht, He. subst fs1.
  unfold try_except, os_unlink. simpl. rewrite lookup_insert_eq. simpl.
  split; [|exact He].
  rewrite delete_insert_id by done. by destruct fs.
Qed.

Section Frames.
Context `{ExternalLibs}.

Lemma read_only_ZipFile path : read_only any_exn (ZipFile path).
Proof.
  intros fs. unfold ZipFile.
  destruct (files fs !! path) as [[|c]|]; [| destruct (unzip c) |]; done.
Qed.

Lemma read_only_zread z name : read_only not_BadZipFile (zread z name).
Proof.
  unfold zread. destruct (NameToInfo z !! name).
  - apply guarded_ret; apply _.
  - by apply guarded_raise.
Qed.

Lemma read_only_converter_parse name : read_only not_BadZipFile (converter_parse name).
Proof.
  intros fs. unfold converter_parse.
  destruct (temps fs !! name) as [[suffix b]|]; [destruct (m21_parse suffix b)|];
    (split; [done|]); intros e [= <-]; done.
Qed.

Lemma contained_stream_write s out : contained not_BadZipFile (stream_write s out).
Proof.
  unfold stream_write. destruct (m21_musicxml s).
  - apply contained_write_bytes.
  - by apply guarded_raise.
Qed.

Lemma contained_convert_mid_to_musicxml mid_bytes out :
  contained no_exn (convert_mid_to_musicxml mid_bytes out).
Proof.
  unfold convert_mid_to_musicxml. destruct music21_installed; simpl.
  - apply scoped_tempfile. intros name.
    apply (guarded_try_except_Exception _ not_BadZipFile); try apply _.
    + apply guarded_bind; try apply _.
      * apply guarded_read_only; [apply _ | apply read_only_converter_parse].
      * intros s. apply guarded_bind; try apply _.
        { apply contained_stream_write. }
        intros _. apply guarded_ret; apply _.
    + apply guarded_ret; apply _.
  - apply guarded_ret; apply _.
Qed.

Lemma read_only_parse_through_tempfile suffix b :
  read_only not_BadZipFile (parse_through_tempfile suffix b).
Proof.
  unfold parse_through_tempfile. apply scoped_tempfile_read_only. intros name.
  apply read_only_converter_parse.
Qed.

End Frames.

(** The calls of the program, at whatever relation and exception set
    the goal asks for. *)
Ltac guard_leaf :=
  eapply guarded_weaken;
  [ | first
      [ apply read_only_zread
      | apply read_only_converter_parse
      | apply read_only_parse_through_tempfile
      | apply read_only_ZipFile
      | apply contained_write_bytes
      | apply contained_stream_write
      | apply contained_convert_mid_to_musicxml
      | apply guarded_read_only;
        [ apply _
        | first [ apply read_only_zread
                | apply read_only_converter_parse
                | apply read_only_parse_through_tempfile
                | apply read_only_ZipFile ] ] ] ];
  [ let e := fresh "e" in let He := fresh "He" in
    intros e He; unfold any_exn, no_exn in *;
    first [ exact I | exact He | contradiction ] ].

Ltac guard_step :=
  match goal with
  | |- Reflexive _ => apply _
  | |- Transitive _ => apply _
  | |- forall _, _ => intros ?
  | |- guarded _ _ (ret _) => apply guarded_ret
  | |- guarded _ _ (raise _) => apply guarded_raise; done
  | |- guarded _ _ (bind _ _) => apply guarded_bind
  | |- guarded _ _ (for_return _ _) => apply guarded_for_return
  | |- guarded _ not_BadZipFile (try_except only_BadZipFile _ _) =>
      apply (guarded_try_except_BadZipFile _ any_exn)
  | |- guarded _ _ (try_except Exception _ _) =>
      apply (guarded_try_except_Exception _ any_exn)
  | |- guarded _ _ (if ?b then _ else _) => destruct b
  | |- guarded _ _ (match ?x with _ => _ end) => destruct x
  | |- guarded _ _ _ => guard_leaf
  end.

Ltac guard_all := repeat guard_step.

(** ** Archives *)

Lemma NameToInfo_lookup (z : archive) (m : gmap string bytes) (n : string) :
  is_Some (foldl (fun m e => <[e.1 := e.2]> m) m z !! n)
  <-> n ∈ z.*1 ∨ is_Some (m !! n).
Proof.
  revert m. induction z as [|[k v] z IH]; intros m; simpl.
  - rewrite elem_of_nil. tauto.
  - rewrite IH, elem_of_cons, lookup_insert. simpl.
    destruct (decide (k = n)) as [->|Hne].
    + split; [|intros _; right]; eauto.
    + split; [intros [?|?]; eauto | intros [[?|?]|?]; eauto]. congruence.
Qed.

Lemma NameToInfo_is_Some (z : archive) (n : string) :
  n ∈ namelist z <-> is_Some (NameToInfo z !! n).
Proof.
  unfold NameToInfo, namelist. rewrite NameToInfo_lookup, lookup_empty.
  split; [eauto|]. intros [?|[? ?]]; done.
Qed.

Lemma first_match_filter {A B} (f : A -> option B) (P : A -> Prop)
    `{!forall x, Decision (P x)} (l : list A) :
  (forall x, x ∈ l -> ¬ P x -> f x = None) ->
  first_match f (filter P l) = first_match f l.
Proof.
  induction l as [|x l IH]; intros Hskip; [done|].
  rewrite filter_cons. destruct (decide (P x)) as [HP|HP]; simpl.
  - rewrite IH; [done|]. intros y Hy. apply Hskip. by right.
  - rewrite (Hskip x); [|by left|done].
    apply IH. intros y Hy. apply Hskip. by right.
Qed.

Section Detection.
Context `{ExternalLibs}.

(** The loop over the names, read as a search for the first entry that
    is MusicXML. *)
Lemma for_return_first_match {R} (z : archive) (names : list string)
    (act : bytes -> M (option R)) fs :
  (forall b fs', (act b fs').2 ≠ Ok None) ->
  (forall n, n ∈ names -> n ∈ namelist z) ->
  for_return names (fun name =>
    if endswith (lower name) ".xml" then
      b <~ zread z name;
      if is_musicxml_bytes b then act b else ret None
    else ret None) fs
  = match first_match (musicxml_entry z) names with
    | Some b => act b fs
    | None => (fs, Ok None)
    end.
Proof.
  intros Hact. induction names as [|n names IH]; intros Hin; [done|].
  assert (is_Some (NameToInfo z !! n)) as [b Hb].
  { apply NameToInfo_is_Some, Hin. by left. }
  assert (forall n', n' ∈ names -> n' ∈ namelist z) as Hin'.
  { intros n' Hn'. apply Hin. by right. }
  cbn [for_return first_match]. unfold musicxml_entry at 1, entry_bytes, bind at 1.
  destruct (endswith (lower n) ".xml").
  - unfold zread, bind at 1. rewrite Hb. unfold ret at 1.
    destruct (is_musicxml_bytes b).
    + destruct (act b fs) as [fs1 [[v|]|e]] eqn:Hab; try done.
      exfalso. apply (Hact b fs). by rewrite Hab.
    + unfold ret at 1. by apply IH.
  - unfold ret at 1. by apply IH.
Qed.

(** The priority list, unfolded in the order the code tests it. *)
Lemma inspect_unfold (z : archive) :
  inspect z =
    match
      (if bool_decide ("doc.xml" ∈ namelist z) then
         match NameToInfo z !! "doc.xml" with
         | Some b => if is_musicxml_bytes b then Some b else None
         | None => None
         end
       else None)
    with
    | Some b => DirectMusicXML b
    | None =>
        if bool_decide ("doc.mid" ∈ namelist z) then
          match NameToInfo z !! "doc.mid" with
          | Some mb => MidiPayload mb
          | None => Unrecognized
          end
        else
          match first_match (musicxml_entry z) (namelist z) with
          | Some b => DirectMusicXML b
          | None => Unrecognized
          end
    end.
Proof.
  unfold inspect. cbn [first_match].
  unfold rule_doc_xml at 1, entry_bytes.
  destruct (bool_decide ("doc.xml" ∈ namelist z)) eqn:Hx.
  - apply bool_decide_eq_true in Hx.
    destruct (proj1 (NameToInfo_is_Some z "doc.xml") Hx) as [b Hb]. rewrite Hb.
    destruct (is_musicxml_bytes b) eqn:Hm; [done|].
    unfold rule_doc_mid, entry_bytes.
    destruct (bool_decide ("doc.mid" ∈ namelist z)) eqn:Hd.
    + apply bool_decide_eq_true in Hd.
      destruct (proj1 (NameToInfo_is_Some z "doc.mid") Hd) as [mb Hmb].
      by rewrite Hmb.
    + apply bool_decide_eq_false in Hd.
      unfold rule_any_xml, remaining_entries.
      rewrite first_match_filter.
      * by destruct (first_match (musicxml_entry z) (namelist z)).
      * intros n Hn Hnot.
        destruct (decide (n = "doc.xml")) as [->|Hnx].
        { unfold musicxml_entry, entry_bytes. rewrite Hb, Hm.
          by destruct (endswith _ _). }
        destruct (decide (n = "doc.mid")) as [->|Hnd]; [done|].
        destruct Hnot. done.
  - apply bool_decide_eq_false in Hx.
    unfold rule_doc_mid, entry_bytes.
    destruct (bool_decide ("doc.mid" ∈ namelist z)) eqn:Hd.
    + apply bool_decide_eq_true in Hd.
      destruct (proj1 (NameToInfo_is_Some z "doc.mid") Hd) as [mb Hmb].
      by rewrite Hmb.
    + apply bool_decide_eq_false in Hd.
      unfold rule_any_xml, remaining_entries.
      rewrite first_match_filter.
      * by destruct (first_match (musicxml_entry z) (namelist z)).
      * intros n Hn Hnot.
        destruct (decide (n = "doc.xml")) as [->|Hnx]; [done|].
        destruct (decide (n = "doc.mid")) as [->|Hnd]; [done|].
        destruct Hnot. done.
Qed.

End Detection.

Section Dispatch.
Context `{ExternalLibs}.

Lemma ZipFile_Ok fs path c z :
  files fs !! path = Some (File c) -> unzip c = Some z ->
  ZipFile path fs = (fs, Ok z).
Proof. intros Hf Hz. unfold ZipFile. by rewrite Hf, Hz. Qed.

Lemma zread_Ok z name b fs :
  NameToInfo z !! name = Some b -> zread z name fs = (fs, Ok b).
Proof. intros Hb. unfold zread. by rewrite Hb. Qed.

Lemma contained_convert_classified out c :
  contained not_BadZipFile (convert_classified out c).
Proof. unfold convert_classified. guard_all. Qed.

(** The code after a failed doc.xml test: doc.mid, then any .xml. *)
Lemma process_single_file_tail fs out z :
  (if bool_decide ("doc.mid" ∈ namelist z) then
     midb <~ zread z "doc.mid";
     ok <~ convert_mid_to_musicxml midb out;
     if ok then ret 0 else ret 3
   else
     r <~ for_return (namelist z) (fun name =>
            if endswith (lower name) ".xml" then
              b <~ zread z name;
              if is_musicxml_bytes b then
                write_bytes out b;;
                ret (Some 0)
              else ret None
            else ret None);
     match r with
     | Some rc => ret rc
     | None => ret 4
     end) fs
  = convert_classified out
      (if bool_decide ("doc.mid" ∈ namelist z) then
         match NameToInfo z !! "doc.mid" with
         | Some mb => MidiPayload mb
         | None => Unrecognized
         end
       else
         match first_match (musicxml_entry z) (namelist z) with
         | Some b => DirectMusicXML b
         | None => Unrecognized
         end) fs.
Proof.
  destruct (bool_decide ("doc.mid" ∈ namelist z)) eqn:Hd.
  - apply bool_decide_eq_true in Hd.
    destruct (proj1 (NameToInfo_is_Some z "doc.mid") Hd) as [mb Hmb].
    by rewrite Hmb, (bind_Ok _ _ _ _ _ (zread_Ok _ _ _ _ Hmb)).
  - unfold bind at 1.
    rewrite (for_return_first_match z (namelist z)
               (fun b => write_bytes out b;; ret (Some 0))); [| |done].
    + destruct (first_match (musicxml_entry z) (namelist z)) as [b|]; [|done].
      unfold convert_classified, bind, ret.
      by destruct (write_bytes out b fs) as [fs1 [[]|e]].
    + intros b fs'. unfold bind, ret.
      by destruct (write_bytes out b fs') as [fs1 [[]|e]].
Qed.

Lemma process_single_file_inspect fs inp out ow c z :
  files fs !! inp = Some (File c) -> unzip c = Some z ->
  exists_ fs out && negb ow = false ->
  process_single_file inp out ow fs = convert_classified out (inspect z) fs.
Proof.
  intros Hf Hz Hgo. unfold process_single_file, isfile.
  rewrite Hf, Hgo. simpl negb. cbv iota.
  match goal with
  | |- try_except _ ?body _ _ = _ =>
      assert (body fs = convert_classified out (inspect z) fs) as Hbody
  end.
  { rewrite (bind_Ok _ _ _ _ _ (ZipFile_Ok _ _ _ _ Hf Hz)).
    rewrite inspect_unfold.
    destruct (bool_decide ("doc.xml" ∈ namelist z)) eqn:Hx.
    - apply bool_decide_eq_true in Hx.
      destruct (proj1 (NameToInfo_is_Some z "doc.xml") Hx) as [b Hb]. rewrite Hb.
      unfold bind at 1. rewrite (bind_Ok _ _ _ _ _ (zread_Ok _ _ _ _ Hb)).
      destruct (is_musicxml_bytes b) eqn:Hm.
      + unfold convert_classified, bind, ret.
        by destruct (write_bytes out b fs) as [fs1 [[]|e]].
      + unfold ret at 1. apply process_single_file_tail.
    - unfold bind at 1, ret at 1. apply process_single_file_tail. }
  rewrite try_except_through; [done|].
  intros e He. rewrite Hbody in He.
  by apply (contained_convert_classified out (inspect z) fs).
Qed.

Lemma read_only_parse_classified c : read_only not_BadZipFile (parse_classified c).
Proof. unfold parse_classified. guard_all. Qed.

Lemma parse_playscore_to_score_tail fs z :
  (if bool_decide ("doc.mid" ∈ namelist z) then
     mb <~ zread z "doc.mid";
     score <~ parse_through_tempfile ".mid" mb;
     ret (Some score)
   else
     for_return (namelist z) (fun name =>
       if endswith (lower name) ".xml" then
         b <~ zread z name;
         if is_musicxml_bytes b then
           score <~ parse_through_tempfile ".musicxml" b;
           ret (Some score)
         else ret None
       else ret None)) fs
  = parse_classified
      (if bool_decide ("doc.mid" ∈ namelist z) then
         match NameToInfo z !! "doc.mid" with
         | Some mb => MidiPayload mb
         | None => Unrecognized
         end
       else
         match first_match (musicxml_entry z) (namelist z) with
         | Some b => DirectMusicXML b
         | None => Unrecognized
         end) fs.
Proof.
  destruct (bool_decide ("doc.mid" ∈ namelist z)) eqn:Hd.
  - apply bool_decide_eq_true in Hd.
    destruct (proj1 (NameToInfo_is_Some z "doc.mid") Hd) as [mb Hmb].
    by rewrite Hmb, (bind_Ok _ _ _ _ _ (zread_Ok _ _ _ _ Hmb)).
  - rewrite (for_return_first_match z (namelist z)
               (fun b => score <~ parse_through_tempfile ".musicxml" b;
                         ret (Some score))); [| |done].
    + by destruct (first_match (musicxml_entry z) (namelist z)) as [b|].
    + intros b fs'. unfold bind, ret.
      by destruct (parse_through_tempfile ".musicxml" b fs') as [fs1 [s|e]].
Qed.

Lemma parse_playscore_to_score_inspect fs path c z :
  music21_installed = true ->
  files fs !! path = Some (File c) -> unzip c = Some z ->
  parse_playscore_to_score path fs = parse_classified (inspect z) fs.
Proof.
  intros Hm21 Hf Hz. unfold parse_playscore_to_score. rewrite Hm21.
  change (negb true) with false. cbv iota.
  match goal with
  | |- try_except _ ?body _ _ = _ =>
      assert (body fs = parse_classified (inspect z) fs) as Hbody
  end.
  { rewrite (bind_Ok _ _ _ _ _ (ZipFile_Ok _ _ _ _ Hf Hz)).
    rewrite inspect_unfold.
    destruct (bool_decide ("doc.xml" ∈ namelist z)) eqn:Hx.
    - apply bool_decide_eq_true in Hx.
      destruct (proj1 (NameToInfo_is_Some z "doc.xml") Hx) as [b Hb]. rewrite Hb.
      unfold bind at 1. rewrite (bind_Ok _ _ _ _ _ (zread_Ok _ _ _ _ Hb)).
      destruct (is_musicxml_bytes b) eqn:Hm.
      + unfold parse_classified, bind, ret.
        by destruct (parse_through_tempfile ".musicxml" b fs) as [fs1 [s|e]].
      + unfold ret at 1. apply parse_playscore_to_score_tail.
    - unfold bind at 1, ret at 1. apply parse_playscore_to_score_tail. }
  rewrite try_except_through; [done|].
  intros e He. rewrite Hbody in He.
  by apply (read_only_parse_classified (inspect z) fs).
Qed.

Lemma extract_musicxml_bytes_tail fs z :
  (if bool_decide ("doc.mid" ∈ namelist z) then ret None
   else
     for_return (namelist z) (fun name =>
       if endswith (lower name) ".xml" then
         b <~ zread z name;
         if is_musicxml_bytes b then ret (Some b) else ret None
       else ret None)) fs
  = (fs, Ok (extract_classified
      (if bool_decide ("doc.mid" ∈ namelist z) then
         match NameToInfo z !! "doc.mid" with
         | Some mb => MidiPayload mb
         | None => Unrecognized
         end
       else
         match first_match (musicxml_entry z) (namelist z) with
         | Some b => DirectMusicXML b
         | None => Unrecognized
         end))).
Proof.
  destruct (bool_decide ("doc.mid" ∈ namelist z)) eqn:Hd.
  - by destruct (NameToInfo z !! "doc.mid").
  - rewrite (for_return_first_match z (namelist z) (fun b => ret (Some b)));
      [|done|done].
    by destruct (first_match (musicxml_entry z) (namelist z)) as [b|].
Qed.

Lemma extract_musicxml_bytes_inspect fs path c z :
  files fs !! path = Some (File c) -> unzip c = Some z ->
  extract_musicxml_bytes_from_playscore path fs
  = (fs, Ok (extract_classified (inspect z))).
Proof.
  intros Hf Hz. unfold extract_musicxml_bytes_from_playscore.
  match goal with
  | |- try_except _ ?body _ _ = _ =>
      assert (body fs = (fs, Ok (extract_classified (inspect z)))) as Hbody
  end.
  { rewrite (bind_Ok _ _ _ _ _ (ZipFile_Ok _ _ _ _ Hf Hz)).
    rewrite inspect_unfold.
    destruct (bool_decide ("doc.xml" ∈ namelist z)) eqn:Hx.
    - apply bool_decide_eq_true in Hx.
      destruct (proj1 (NameToInfo_is_Some z "doc.xml") Hx) as [b Hb]. rewrite Hb.
      unfold bind at 1. rewrite (bind_Ok _ _ _ _ _ (zread_Ok _ _ _ _ Hb)).
      destruct (is_musicxml_bytes b) eqn:Hm; [done|].
      unfold ret at 1. apply extract_musicxml_bytes_tail.
    - unfold bind at 1, ret at 1. apply extract_musicxml_bytes_tail. }
  rewrite try_except_through; [done|].
  intros e He. rewrite Hbody in He. discriminate He.
Qed.

End Dispatch.

(** ** The calls as a whole *)

Section Calls.
Context `{ExternalLibs}.

Lemma contained_process_single_file inp out ow :
  contained not_BadZipFile (process_single_file inp out ow).
Proof.
  intros fs. unfold process_single_file.
  destruct (negb (isfile fs inp)); [done|].
  destruct (exists_ fs out && negb ow); [done|].
  match goal with
  | |- _ _ (?m fs).1 ∧ _ =>
      assert (contained not_BadZipFile m) as Hm; [guard_all | apply Hm]
  end.
Qed.

Lemma read_only_parse_playscore_to_score path :
  read_only not_BadZipFile (parse_playscore_to_score path).
Proof. unfold parse_playscore_to_score. guard_all. Qed.

Lemma read_only_parse_inputs inputs parsed_scores :
  read_only not_BadZipFile (parse_inputs inputs parsed_scores).
Proof.
  revert parsed_scores. induction inputs as [|f inputs IH]; intros acc; simpl.
  - guard_all.
  - apply guarded_bind; [apply _ | apply read_only_parse_playscore_to_score |].
    intros [s|]; apply IH.
Qed.

Lemma contained_merge_files inputs out ow :
  contained not_BadZipFile (merge_files inputs out ow).
Proof.
  intros fs. unfold merge_files.
  destruct (exists_ fs out && negb ow); [done|].
  destruct (negb music21_installed); [done|].
  match goal with
  | |- _ _ (?m fs).1 ∧ _ =>
      assert (contained not_BadZipFile m) as Hm; [| apply Hm]
  end.
  apply guarded_bind; [apply _ | |].
  - apply guarded_read_only; [apply _ | apply read_only_parse_inputs].
  - intros [|p parsed]; [guard_all|].
    destruct (combine (p :: parsed) ([], 0%nat)) as [combined part_count].
    guard_all.
Qed.

End Calls.

(** ** What the calls compute *)

Section Outcomes.
Context `{ExternalLibs}.

Lemma FS_eta fs : FS (files fs) (temps fs) = fs.
Proof. by destruct fs. Qed.

Lemma parse_through_tempfile_spec suffix b fs :
  parse_through_tempfile suffix b fs
  = (fs, match m21_parse suffix b with
         | Some s => Ok s
         | None => Raise Music21Error
         end).
Proof.
  unfold parse_through_tempfile.
  destruct (NamedTemporaryFile_fresh suffix b fs) as (name & Hmk & Hfresh).
  rewrite (bind_Ok _ _ _ _ _ Hmk).
  unfold try_finally, converter_parse, try_except, os_unlink. simpl.
  rewrite lookup_insert_eq.
  destruct (m21_parse suffix b) as [s|]; simpl;
    rewrite lookup_insert_eq; simpl;
    by rewrite delete_insert_id, FS_eta.
Qed.

Lemma write_bytes_Ok path b fs :
  can_write fs path = true ->
  write_bytes path b fs = (FS (<[path := File b]> (files fs)) (temps fs), Ok tt).
Proof.
  unfold can_write, write_bytes.
  destruct (files fs !! path) as [[|old]|]; [done| |];
    by destruct (open_refused path).
Qed.

Lemma write_bytes_Raise path b fs :
  can_write fs path = false ->
  exists e, write_bytes path b fs = (fs, Raise e)
            ∧ (e = IsADirectoryError ∧ files fs !! path = Some Dir
               ∨ exists f, e = open_exn f ∧ open_refused path = Some f).
Proof.
  unfold can_write, write_bytes.
  destruct (files fs !! path) as [[|old]|]; [eauto 6| |];
    (destruct (open_refused path) as [f|]; [|done]); eauto 8.
Qed.

(** The MIDI conversion: true exactly when music21 is there, parses
    the payload, serialises the score and the path music21 writes can
    be opened; then that path holds the serialisation, and otherwise
    nothing has changed. *)
Lemma convert_mid_to_musicxml_spec mid_bytes out fs :
  convert_mid_to_musicxml mid_bytes out fs
  = if music21_installed then
      match m21_parse ".mid" mid_bytes with
      | Some s =>
          match m21_musicxml s with
          | Some x =>
              if can_write fs (m21_written_path out) then
                (FS (<[m21_written_path out := File x]> (files fs)) (temps fs),
                 Ok true)
              else (fs, Ok false)
          | None => (fs, Ok false)
          end
      | None => (fs, Ok false)
      end
    else (fs, Ok false).
Proof.
  unfold convert_mid_to_musicxml. destruct music21_installed; [|done].
  change (negb true) with false. cbv iota.
  destruct (NamedTemporaryFile_fresh ".mid" mid_bytes fs) as (name & Hmk & Hfresh).
  rewrite (bind_Ok _ _ _ _ _ Hmk).
  assert (forall F, try_except Exception (os_unlink name) (ret tt)
                      (FS F (<[name := (".mid", mid_bytes)]> (temps fs)))
                    = (FS F (temps fs), Ok tt)) as Hclean.
  { intros F. unfold try_except, os_unlink. simpl. rewrite lookup_insert_eq. simpl.
    by rewrite delete_insert_id. }
  set (fs0 := FS (files fs) (<[name := (".mid", mid_bytes)]> (temps fs))).
  assert (can_write fs0 (m21_written_path out) = can_write fs (m21_written_path out))
    as Hsame by done.
  assert (try_except Exception
            (score <~ converter_parse name; stream_write score out;; ret true)
            (ret false) fs0
          = match m21_parse ".mid" mid_bytes with
            | Some s =>
                match m21_musicxml s with
                | Some x =>
                    if can_write fs (m21_written_path out) then
                      (FS (<[m21_written_path out := File x]> (files fs0)) (temps fs0),
                       Ok true)
                    else (fs0, Ok false)
                | None => (fs0, Ok false)
                end
            | None => (fs0, Ok false)
            end) as Hbody.
  { unfold try_except, bind at 1, converter_parse.
    replace (temps fs0 !! name) with (Some (".mid", mid_bytes))
      by (unfold fs0; simpl; by rewrite lookup_insert_eq).
    destruct (m21_parse ".mid" mid_bytes) as [s|]; [|done].
    unfold stream_write, bind. destruct (m21_musicxml s) as [x|]; [|done].
    destruct (can_write fs (m21_written_path out)) eqn:Hw.
    - by rewrite (write_bytes_Ok _ x fs0).
    - by destruct (write_bytes_Raise _ x fs0 Hsame) as (e & -> & _). }
  unfold try_finally. rewrite Hbody. clear Hbody Hsame. subst fs0.
  destruct (m21_parse ".mid" mid_bytes) as [s|]; [|by rewrite Hclean, FS_eta].
  destruct (m21_musicxml s) as [x|]; [|by rewrite Hclean, FS_eta].
  destruct (can_write fs (m21_written_path out)); [|by rewrite Hclean, FS_eta].
  cbn [files temps]. by rewrite Hclean.
Qed.

Lemma process_single_file_not_found fs inp out ow :
  isfile fs inp = false -> process_single_file inp out ow fs = (fs, Ok 2).
Proof. intros Hf. unfold process_single_file. by rewrite Hf. Qed.


Lemma process_single_file_corrupt fs inp out ow c :
  files fs !! inp = Some (File c) -> exists_ fs out && negb ow = false ->
  unzip c = None ->
  process_single_file inp out ow fs = (fs, Ok 2).
Proof.
  intros Hf Hgo Hz. unfold process_single_file, isfile. rewrite Hf, Hgo.
  change (negb true) with false. cbv iota.
  unfold try_except, bind at 1, ZipFile. by rewrite Hf, Hz.
Qed.

Lemma isfile_lookup fs p :
  isfile fs p = true <-> exists c, files fs !! p = Some (File c).
Proof.
  unfold isfile. destruct (files fs !! p) as [[|c]|]; split; eauto;
    try done; by intros [? ?].
Qed.

(** A conversion that returned 0 leaves the input a file, and it leaves
    an output at the output path whenever that is the path music21
    writes for it. *)
Lemma process_single_file_success fs inp out ow fs1 :
  process_single_file inp out ow fs = (fs1, Ok 0) ->
  isfile fs1 inp = true
  ∧ (m21_written_path out = out -> exists_ fs1 out = true).
Proof.
  destruct (isfile fs inp) eqn:Hf.
  2:{ rewrite process_single_file_not_found by done. intros [= <-]. }
  destruct (exists_ fs out && negb ow) eqn:Hgo.
  { unfold process_single_file. rewrite Hf, Hgo. simpl. intros [= <-].
    apply andb_prop in Hgo. tauto. }
  pose proof Hf as Hf'. apply isfile_lookup in Hf' as [c Hc].
  destruct (unzip c) as [z|] eqn:Hz.
  2:{ rewrite (process_single_file_corrupt fs inp out ow c) by done. intros [= <-]. }
  rewrite (process_single_file_inspect fs inp out ow c z) by done.
  assert (forall p x,
    let fs' := FS (<[p := File x]> (files fs)) (temps fs) in
    isfile fs' inp = true ∧ exists_ fs' p = true) as Hwritten.
  { intros p x. unfold isfile, exists_. simpl. rewrite lookup_insert_eq.
    split; [|done]. rewrite lookup_insert. case_decide; [done|]. by rewrite Hc. }
  destruct (inspect z) as [b|mb|]; simpl.
  - unfold bind, ret. destruct (can_write fs out) eqn:Hw.
    + rewrite write_bytes_Ok by done. intros [= <-].
      split; [apply (Hwritten out b) | intros _; apply (Hwritten out b)].
    + by destruct (write_bytes_Raise out b fs Hw) as (e & -> & _).
  - unfold bind. rewrite convert_mid_to_musicxml_spec.
    destruct music21_installed; [|done].
    destruct (m21_parse ".mid" mb) as [s|]; [|done].
    destruct (m21_musicxml s) as [x|]; [|done].
    destruct (can_write fs (m21_written_path out)); [|done].
    intros [= <-]. split; [apply (Hwritten _ x)|].
    intros Hsame. rewrite Hsame. apply (Hwritten out x).
  - done.
Qed.

End Outcomes.

(** ** Merging *)

Section Merging.
Context `{ExternalLibs}.

Lemma parse_playscore_to_score_corrupt fs path c :
  files fs !! path = Some (File c) -> unzip c = None ->
  parse_playscore_to_score path fs = (fs, Ok None).
Proof.
  intros Hf Hz. unfold parse_playscore_to_score.
  destruct music21_installed; [|done]. change (negb true) with false. cbv iota.
  unfold try_except, bind at 1, ZipFile. by rewrite Hf, Hz.
Qed.

Lemma parse_playscore_to_score_unresolvable fs f :
  unresolvable fs f -> parse_playscore_to_score f fs = (fs, Ok None).
Proof.
  intros (c & Hf & [Hz|(z & Hz & Hi)]).
  - by eapply parse_playscore_to_score_corrupt.
  - destruct music21_installed eqn:Hm21.
    + rewrite (parse_playscore_to_score_inspect fs f c z) by done. by rewrite Hi.
    + unfold parse_playscore_to_score. by rewrite Hm21.
Qed.

Lemma parse_inputs_unresolvable fs inputs parsed_scores :
  Forall (unresolvable fs) inputs ->
  parse_inputs inputs parsed_scores fs = (fs, Ok parsed_scores).
Proof.
  induction 1 as [|f inputs Hf _ IH]; [done|]. simpl.
  by rewrite (bind_Ok _ _ _ _ _ (parse_playscore_to_score_unresolvable fs f Hf)).
Qed.


Lemma append_parts_spec (acc : list stream * nat) (ps : list stream) :
  append_parts acc ps = ((acc.1 ++ ps)%list, (acc.2 + List.length ps)%nat).
Proof.
  unfold append_parts. revert acc.
  induction ps as [|p ps IH]; intros [combined n]; simpl.
  - by rewrite app_nil_r, Nat.add_0_r.
  - rewrite IH. simpl. by rewrite <- app_assoc, Nat.add_succ_r.
Qed.

(** The second loop appends the contribution of each source, in order,
    and counts what it appends. *)
Lemma combine_spec (parsed_scores : list (string * stream)) (acc : list stream * nat) :
  combine parsed_scores acc
  = ((acc.1 ++ flat_map contribution parsed_scores.*2)%list,
     (acc.2 + List.length (flat_map contribution parsed_scores.*2))%nat).
Proof.
  revert acc. induction parsed_scores as [|[fname s] rest IH]; intros [combined n].
  - simpl. by rewrite app_nil_r, Nat.add_0_r.
  - cbn [combine fmap list_fmap flat_map snd]. unfold contribution at 1 3.
    destruct (m21_parts s) as [[|p ps]|]; cbn [List.length Nat.ltb Nat.leb];
      rewrite ?append_parts_spec, IH; cbn [fst snd];
      rewrite <- ?app_assoc, ?length_app; cbn [List.length app];
      f_equal; lia.
Qed.

Lemma merge_files_started fs inputs out ow :
  exists_ fs out && negb ow = false -> music21_installed = true ->
  merge_files inputs out ow fs
  = (parsed_scores <~ parse_inputs inputs [];
     match parsed_scores with
     | [] => ret 4
     | _ =>
         try_except Exception
           (stream_write
              (m21_score (flat_map contribution parsed_scores.*2)) out;;
            ret 0)
           (ret 5)
     end) fs.
Proof.
  intros Hgo Hm21. unfold merge_files. rewrite Hgo, Hm21.
  change (negb true) with false. cbv iota.
  unfold bind at 1 3. destruct (parse_inputs inputs [] fs) as [fs1 [parsed|e]]; [|done].
  destruct parsed as [|p parsed]; [done|].
  by rewrite combine_spec.
Qed.


Lemma contribution_length s :
  List.length (contribution s)
  = match m21_parts s with
    | Some ps => if (0 <? List.length ps)%nat then List.length ps else 1%nat
    | None => 1%nat
    end.
Proof. unfold contribution. by destruct (m21_parts s) as [[|p ps]|]. Qed.

End Merging.

(** ** The batch loop *)

Lemma default_last_cons (d rc : Z) (l : list Z) :
  default d (last (rc :: l)) = default rc (last l).
Proof.
  destruct l as [|x l]; [done|]. rewrite last_cons_cons.
  destruct (last (x :: l)) eqn:Hl; [done|]. by apply last_None in Hl.
Qed.

Lemma last_failure_zero rcs :
  last_failure rcs = 0 <-> Forall (fun rc => rc = 0) rcs.
Proof.
  unfold last_failure. split.
  - intros Hlast. apply Forall_forall. intros rc Hrc.
    destruct (decide (rc = 0)) as [|Hne]; [done|].
    assert (rc ∈ filter (fun rc => rc ≠ 0) rcs) as Hin
      by (by apply list_elem_of_filter).
    destruct (last (filter (fun rc => rc ≠ 0) rcs)) as [x|] eqn:Hl.
    + simpl in Hlast. subst x. apply last_Some_elem_of in Hl.
      apply list_elem_of_filter in Hl as [Hx _]. done.
    + apply last_None in Hl. rewrite Hl in Hin. by apply elem_of_nil in Hin.
  - intros Hall.
    replace (filter (fun rc => rc ≠ 0) rcs) with (@nil Z); [done|].
    symmetry. induction Hall as [|rc rcs -> _ IH]; [done|].
    rewrite filter_cons_False; [exact IH|]. intros Hne. by apply Hne.
Qed.

Section Batch.
Context `{ExternalLibs}.

Lemma main_loop_spec files todo output ow exit_code fs :
  main_loop files todo output ow exit_code fs
  = (rcs <~ batch_codes files todo output ow;
     ret (default exit_code (last (filter (fun rc => rc ≠ 0) rcs)))) fs.
Proof.
  revert exit_code fs. induction todo as [|f todo IH]; intros ec fs; [done|].
  cbn [main_loop batch_codes]. unfold bind at 1 2 3.
  destruct (process_single_file f _ ow fs) as [fs1 [rc|e]]; [|done].
  rewrite IH. unfold bind.
  destruct (batch_codes files todo output ow fs1) as [fs2 [rcs|e]]; [|done].
  unfold ret. do 2 f_equal. rewrite filter_cons.
  destruct (decide (rc ≠ 0)) as [Hrc|Hrc].
  - apply Z.eqb_neq in Hrc as ->. simpl. by rewrite default_last_cons.
  - assert (rc = 0) as -> by lia. done.
Qed.

End Batch.

(** * The claims *)

Section Claims.
Context `{ExternalLibs}.

(** C1. Every archive the program opens is classified by the priority
    list of the specification, first match winning: doc.xml when it is
    MusicXML, else doc.mid with its raw bytes and no validation, else
    the first remaining entry in archive order whose name ends in .xml
    (whatever its case) and whose bytes are MusicXML, else nothing.
    [process_single_file], [parse_playscore_to_score] and
    [extract_musicxml_bytes_from_playscore] each act on exactly that
    classification. *)
Theorem detection_priority (fs : filesystem) (path : string) (c : bytes) (z : archive) :
  files fs !! path = Some (File c) -> unzip c = Some z ->
  (forall out ow, exists_ fs out && negb ow = false ->
     process_single_file path out ow fs = convert_classified out (inspect z) fs)
  ∧ (music21_installed = true ->
     parse_playscore_to_score path fs = parse_classified (inspect z) fs)
  ∧ extract_musicxml_bytes_from_playscore path fs
    = (fs, Ok (extract_classified (inspect z))).
Proof.
  intros Hf Hz. split; [|split].
  - intros out ow Hgo. by eapply process_single_file_inspect.
  - intros Hm21. by eapply parse_playscore_to_score_inspect.
  - by eapply extract_musicxml_bytes_inspect.
Qed.




(** C5. [is_musicxml_bytes] is a total boolean test: it is true exactly
    when the bytes parse and the local name of the root, the namespace
    cut off and the case ignored, is score-partwise, score-timewise or
    score.  Bytes that do not parse give false; a score-partwise root
    in a namespace is accepted; a root foo is rejected.  (Namespace
    names and local names are free of closing braces.) *)
Theorem is_musicxml_bytes_root_test (b : bytes) :
  parsed_brace_free (xml_root b) ->
  (is_musicxml_bytes b = true <-> root_is_musicxml (xml_root b))
  ∧ (is_musicxml_bytes b = false <-> ¬ root_is_musicxml (xml_root b))
  ∧ (xml_root b = None -> is_musicxml_bytes b = false)
  ∧ (forall uri, xml_root b = Some (QName (Some uri) "score-partwise") ->
       is_musicxml_bytes b = true)
  ∧ (xml_root b = Some (QName None "foo") -> is_musicxml_bytes b = false).
Proof.
  intros Hfree.
  assert (is_musicxml_bytes b = true <-> root_is_musicxml (xml_root b)) as Hiff.
  { destruct (xml_root b) as [q|] eqn:Hroot; simpl in *.
    - rewrite (is_musicxml_bytes_local b q Hroot Hfree), bool_decide_eq_true.
      apply lower_in_roots.
    - rewrite (is_musicxml_bytes_malformed b Hroot). split; [discriminate | tauto]. }
  split; [exact Hiff|]. split; [|split; [|split]].
  - rewrite <- Hiff. by destruct (is_musicxml_bytes b).
  - apply is_musicxml_bytes_malformed.
  - intros uri Hroot. rewrite Hroot in Hfree.
    by rewrite (is_musicxml_bytes_local b _ Hroot Hfree).
  - intros Hroot. rewrite Hroot in Hfree.
    by rewrite (is_musicxml_bytes_local b _ Hroot Hfree).
Qed.

(** C6, as amended. When the call is not cut short by an existing
    output and music21 is installed: if every input is a corrupt
    archive or holds no usable payload, [merge_files] returns 4 and
    writes nothing; and if some input resolved and writing the combined
    score raises, it returns 5, a different code. *)
Theorem merge_nothing_parsable fs inputs out ow :
  exists_ fs out && negb ow = false -> music21_installed = true ->
  (Forall (unresolvable fs) inputs -> merge_files inputs out ow fs = (fs, Ok 4))
  ∧ (forall parsed_scores e fs1,
       parse_inputs inputs [] fs = (fs, Ok parsed_scores) ->
       parsed_scores ≠ [] ->
       stream_write (m21_score (flat_map contribution parsed_scores.*2)) out fs
         = (fs1, Raise e) ->
       merge_files inputs out ow fs = (fs1, Ok 5)).
Proof.
  intros Hgo Hm21. split.
  - intros Hall. rewrite merge_files_started by done.
    by rewrite (bind_Ok _ _ _ _ _ (parse_inputs_unresolvable fs inputs [] Hall)).
  - intros parsed e fs1 Hparsed Hne Hwrite. rewrite merge_files_started by done.
    rewrite (bind_Ok _ _ _ _ _ Hparsed).
    destruct parsed as [|p parsed]; [done|].
    unfold try_except, bind at 1. by rewrite Hwrite.
Qed.

(** C7, as amended. The failures come back as return codes, several
    kinds to a code: [process_single_file] returns 2 when the input is
    not a file and also when it is not a ZIP archive, 3 when a MIDI
    payload cannot be converted, be it that music21 is missing or that
    the conversion fails, and 4 when the archive holds no usable
    payload; [merge_files] returns 3 when music21 is missing. *)
Theorem return_code_table fs inp out ow :
  (isfile fs inp = false -> process_single_file inp out ow fs = (fs, Ok 2))
  ∧ (forall c,
       files fs !! inp = Some (File c) -> exists_ fs out && negb ow = false ->
       (unzip c = None -> process_single_file inp out ow fs = (fs, Ok 2))
       ∧ (forall z, unzip c = Some z ->
            (inspect z = Unrecognized ->
               process_single_file inp out ow fs = (fs, Ok 4))
            ∧ (forall mb, inspect z = MidiPayload mb ->
                 (music21_installed = false ->
                    process_single_file inp out ow fs = (fs, Ok 3))
                 ∧ (m21_parse ".mid" mb = None ->
                    process_single_file inp out ow fs = (fs, Ok 3)))))
  ∧ (forall inputs,
       exists_ fs out && negb ow = false -> music21_installed = false ->
       merge_files inputs out ow fs = (fs, Ok 3)).
Proof.
  split; [|split].
  - apply process_single_file_not_found.
  - intros c Hf Hgo. split; [by apply process_single_file_corrupt|].
    intros z Hz. rewrite (process_single_file_inspect fs inp out ow c z) by done.
    split; [by intros ->|].
    intros mb ->. simpl. unfold bind. rewrite convert_mid_to_musicxml_spec.
    split.
    + by intros ->.
    + intros ->. by destruct music21_installed.
  - intros inputs Hgo Hm21. unfold merge_files. by rewrite Hgo, Hm21.
Qed.

(** C8, as amended. The status of a batch of conversions is the return
    code of the last input that failed, and 0 when none did: it is 0
    exactly when every input succeeded. *)
Theorem exit_status_last_failure files output ow fs :
  main_batch files output ow fs
  = (rcs <~ batch_codes files files output ow; ret (last_failure rcs)) fs
  ∧ forall rcs, last_failure rcs = 0 <-> Forall (fun rc => rc = 0) rcs.
Proof.
  split.
  - unfold main_batch. apply main_loop_spec.
  - apply last_failure_zero.
Qed.

(** The cleanup of the temporary files, once they are written.  After
    [process_single_file] and after [merge_files], whether they return
    a code or raise, the temporary files are those that were there
    before the call, and the same holds of the two functions that
    create them: the [finally] clauses unlink the file on every path
    out of the parser and the writer.  The write of the temporary file
    itself stands before these clauses in the source and is taken to
    succeed here. *)
Lemma temporary_files_unlinked fs inp out ow inputs mid_bytes :
  temps (process_single_file inp out ow fs).1 = temps fs
  ∧ temps (merge_files inputs out ow fs).1 = temps fs
  ∧ temps (convert_mid_to_musicxml mid_bytes out fs).1 = temps fs
  ∧ temps (parse_playscore_to_score inp fs).1 = temps fs.
Proof.
  split; [|split; [|split]].
  - apply (contained_process_single_file inp out ow fs).
  - apply (contained_merge_files inputs out ow fs).
  - apply (contained_convert_mid_to_musicxml mid_bytes out fs).
  - by destruct (read_only_parse_playscore_to_score inp fs) as [<- _].
Qed.

(** C10. When the output path exists and overwrite is off,
    [merge_files] returns 0 at once and leaves the file system as it
    is, whatever the inputs and whether or not music21 is installed. *)
Theorem merge_overwrite_guard_first fs inputs out :
  exists_ fs out = true ->
  merge_files inputs out false fs = (fs, Ok 0).
Proof. intros Hout. unfold merge_files. by rewrite Hout. Qed.

End Claims.

(** * The claims at work, on the sample world *)

Module Examples.
Import Sample.

(** The archive whose only MusicXML sits in inner/Song.XML, behind a
    text file and an .xml entry that is not MusicXML, is classified by
    rule 3. *)
Lemma detection_priority_witness :
  @process_single_file (libs true) "fallback.playscore" "out.musicxml" false disk
  = @convert_classified (libs true) "out.musicxml"
      (DirectMusicXML (B "<Score-Partwise xmlns='urn:m'/>")) disk
  ∧ @parse_playscore_to_score (libs true) "midi.playscore" disk
    = @parse_classified (libs true) (MidiPayload (B "MThd:ok")) disk.
Proof.
  split.
  - apply (@detection_priority (libs true) disk "fallback.playscore"
             (B "PK:fallback") _ eq_refl eq_refl).
    vm_compute. reflexivity.
  - apply (@detection_priority (libs true) disk "midi.playscore"
             (B "PK:midi") _ eq_refl eq_refl).
    reflexivity.
Defined.





Lemma is_musicxml_bytes_root_test_witness :
  @is_musicxml_bytes (libs true) (B "<Score-Partwise xmlns='urn:m'/>") = true
  ∧ @is_musicxml_bytes (libs true) (B "<foo/>") = false
  ∧ @is_musicxml_bytes (libs true) (B "<score-partwise") = false.
Proof.
  split; [|split].
  - destruct (@is_musicxml_bytes_root_test (libs true)
                (B "<Score-Partwise xmlns='urn:m'/>")) as [Htrue _].
    + vm_compute. tauto.
    + apply Htrue. exists "score-partwise". vm_compute. split; [left|]; tauto.
  - destruct (@is_musicxml_bytes_root_test (libs true) (B "<foo/>"))
      as (_ & _ & _ & _ & Hfoo).
    + vm_compute. tauto.
    + apply Hfoo. reflexivity.
  - destruct (@is_musicxml_bytes_root_test (libs true) (B "<score-partwise"))
      as (_ & _ & Hmalformed & _).
    + vm_compute. tauto.
    + apply Hmalformed. reflexivity.
Defined.

Lemma sample_unresolvable :
  Forall (@unresolvable (libs true) disk) ["corrupt.playscore"; "nothing.playscore"].
Proof.
  repeat constructor.
  - exists (B "not a zip"). split; [reflexivity|]. left. reflexivity.
  - exists (B "PK:nothing"). split; [reflexivity|]. right.
    eexists. split; [reflexivity|]. vm_compute. reflexivity.
Qed.

(** C2 fails on the code: a source whose payload music21 cannot parse is
    not skipped.  The exception leaves [parse_playscore_to_score], which
    catches [BadZipFile] only, and [merge_files] with it: the two parts
    of the first source and the score of the third are never combined. *)
Theorem merge_aborts_when_a_parse_raises :
  @parse_playscore_to_score (libs true) "badmidi.playscore" disk
    = (disk, Raise Music21Error)
  ∧ @merge_files (libs true)
      ["two.playscore"; "badmidi.playscore"; "flat.playscore"]
      "merged.musicxml" false disk
    = (disk, Raise Music21Error).
Proof. split; vm_compute; reflexivity. Qed.

(** With a corrupt archive in the middle instead, the merge goes through:
    two parts of the first source, then the part of the third. *)
Lemma merge_skips_a_corrupt_archive :
  @merge_files (libs true)
    ["two.playscore"; "corrupt.playscore"; "midi.playscore"]
    "merged.musicxml" false disk
  = (FS (<["merged.musicxml" :=
            File (B (render (SScore [SPart "A1"; SPart "A2"; SPart "M1"])))]>
           (files disk)) (temps disk),
     Ok 0).
Proof. vm_compute. reflexivity. Qed.

(** C6 as stated fails: no input resolves, yet the call returns 0,
    because the output exists and overwrite is off. *)
Lemma no_score_but_existing_output :
  ¬ (forall (L : ExternalLibs) fs inputs out ow,
       Forall (@unresolvable L fs) inputs ->
       (@merge_files L inputs out ow fs).2 = Ok 4).
Proof.
  intros Hclaim.
  specialize (Hclaim (libs true) disk _ "old.musicxml" false sample_unresolvable).
  vm_compute in Hclaim. discriminate Hclaim.
Qed.

Lemma merge_nothing_parsable_witness :
  @merge_files (libs true) ["corrupt.playscore"; "nothing.playscore"]
    "merged.musicxml" false disk = (disk, Ok 4)
  ∧ @merge_files (libs true) ["two.playscore"] "nodir/merged.musicxml" true disk
    = (disk, Ok 5).
Proof.
  split.
  - apply (@merge_nothing_parsable (libs true) disk); try reflexivity.
    apply sample_unresolvable.
  - destruct (@merge_nothing_parsable (libs true) disk ["two.playscore"]
                "nodir/merged.musicxml" true eq_refl eq_refl) as [_ Hwrite].
    apply (Hwrite [("two.playscore", SScore [SPart "A1"; SPart "A2"])]
             FileNotFoundError disk).
    + vm_compute. reflexivity.
    + discriminate.
    + vm_compute. reflexivity.
Defined.

(** C7 as stated fails: an input that is not there and an input that is
    no ZIP archive come back with the same code, and so do a missing
    music21 and a MIDI payload music21 cannot convert. *)
Lemma failure_kinds_share_codes :
  (isfile disk "missing.playscore" = false
   ∧ (@process_single_file (libs true) "missing.playscore" "out.musicxml" false disk).2
     = Ok 2)
  ∧ (isfile disk "corrupt.playscore" = true
     ∧ (@ZipFile (libs true) "corrupt.playscore" disk).2 = Raise BadZipFile
     ∧ (@process_single_file (libs true) "corrupt.playscore" "out.musicxml" false disk).2
       = Ok 2)
  ∧ (@inspect (libs false) <$> sample_unzip (B "PK:midi")
       = Some (MidiPayload (B "MThd:ok"))
     ∧ (@process_single_file (libs false) "midi.playscore" "out.musicxml" false disk).2
       = Ok 3)
  ∧ (@inspect (libs true) <$> sample_unzip (B "PK:badmidi")
       = Some (MidiPayload (B "garbage"))
     ∧ sample_parse ".mid" (B "garbage") = None
     ∧ (@process_single_file (libs true) "badmidi.playscore" "out.musicxml" false disk).2
       = Ok 3).
Proof. repeat split; vm_compute; reflexivity. Qed.

Lemma return_code_table_witness :
  @process_single_file (libs true) "missing.playscore" "out.musicxml" false disk
    = (disk, Ok 2)
  ∧ @process_single_file (libs true) "corrupt.playscore" "out.musicxml" false disk
    = (disk, Ok 2)
  ∧ @process_single_file (libs true) "nothing.playscore" "out.musicxml" false disk
    = (disk, Ok 4)
  ∧ @process_single_file (libs false) "midi.playscore" "out.musicxml" false disk
    = (disk, Ok 3)
  ∧ @process_single_file (libs true) "badmidi.playscore" "out.musicxml" false disk
    = (disk, Ok 3)
  ∧ @merge_files (libs false) ["two.playscore"] "merged.musicxml" false disk
    = (disk, Ok 3).
Proof.
  pose proof (@return_code_table (libs true) disk "missing.playscore"
                "out.musicxml" false) as (Hmissing & _ & _).
  pose proof (@return_code_table (libs true) disk "corrupt.playscore"
                "out.musicxml" false) as (_ & Hcorrupt & _).
  pose proof (@return_code_table (libs true) disk "nothing.playscore"
                "out.musicxml" false) as (_ & Hnothing & _).
  pose proof (@return_code_table (libs false) disk "midi.playscore"
                "out.musicxml" false) as (_ & Hmissing21 & _).
  pose proof (@return_code_table (libs true) disk "badmidi.playscore"
                "out.musicxml" false) as (_ & Hbadmidi & _).
  pose proof (@return_code_table (libs false) disk "two.playscore"
                "merged.musicxml" false) as (_ & _ & Hmerge).
  split; [|split; [|split; [|split; [|split]]]].
  - apply Hmissing. reflexivity.
  - apply (Hcorrupt (B "not a zip")); reflexivity.
  - destruct (Hnothing (B "PK:nothing") eq_refl eq_refl) as [_ Hz].
    apply (Hz _ eq_refl). vm_compute. reflexivity.
  - destruct (Hmissing21 (B "PK:midi") eq_refl eq_refl) as [_ Hz].
    destruct (Hz _ eq_refl) as [_ Hmid].
    destruct (Hmid (B "MThd:ok")) as [Hno21 _]; [vm_compute; reflexivity|].
    apply Hno21. reflexivity.
  - destruct (Hbadmidi (B "PK:badmidi") eq_refl eq_refl) as [_ Hz].
    destruct (Hz _ eq_refl) as [_ Hmid].
    destruct (Hmid (B "garbage")) as [_ Hfail]; [vm_compute; reflexivity|].
    apply Hfail. reflexivity.
  - apply Hmerge; reflexivity.
Defined.

(** C8 as stated fails: the same two failures, taken in the other
    order, give another status; no measure of the worst outcome that is
    blind to the order of the inputs is what the batch reports. *)
Lemma exit_status_follows_input_order :
  ((@batch_codes (libs true) ["nothing.playscore"; "corrupt.playscore"]
      ["nothing.playscore"; "corrupt.playscore"] None false disk).2 = Ok [4; 2]
   ∧ (@main_batch (libs true) ["nothing.playscore"; "corrupt.playscore"]
        None false disk).2 = Ok 2
   ∧ (@batch_codes (libs true) ["corrupt.playscore"; "nothing.playscore"]
        ["corrupt.playscore"; "nothing.playscore"] None false disk).2 = Ok [2; 4]
   ∧ (@main_batch (libs true) ["corrupt.playscore"; "nothing.playscore"]
        None false disk).2 = Ok 4)
  ∧ ¬ exists worst, order_blind worst ∧ @reports_worst (libs true) worst.
Proof.
  assert ((@batch_codes (libs true) ["nothing.playscore"; "corrupt.playscore"]
      ["nothing.playscore"; "corrupt.playscore"] None false disk).2 = Ok [4; 2]
   ∧ (@main_batch (libs true) ["nothing.playscore"; "corrupt.playscore"]
        None false disk).2 = Ok 2
   ∧ (@batch_codes (libs true) ["corrupt.playscore"; "nothing.playscore"]
        ["corrupt.playscore"; "nothing.playscore"] None false disk).2 = Ok [2; 4]
   ∧ (@main_batch (libs true) ["corrupt.playscore"; "nothing.playscore"]
        None false disk).2 = Ok 4) as Hruns
    by (repeat split; vm_compute; reflexivity).
  split; [exact Hruns|].
  destruct Hruns as (Hc1 & Hm1 & Hc2 & Hm2).
  intros (worst & Hblind & Hworst).
  pose proof (Hworst _ _ _ _ _ _ Hc1 Hm1) as H1.
  pose proof (Hworst _ _ _ _ _ _ Hc2 Hm2) as H2.
  rewrite (Hblind [4; 2] [2; 4]) in H1 by apply perm_swap.
  rewrite <- H2 in H1. discriminate H1.
Qed.

Lemma exit_status_last_failure_witness :
  @main_batch (libs true)
    ["direct.playscore"; "nothing.playscore"; "corrupt.playscore"; "midi.playscore"]
    None false disk
  = (rcs <~ @batch_codes (libs true)
       ["direct.playscore"; "nothing.playscore"; "corrupt.playscore"; "midi.playscore"]
       ["direct.playscore"; "nothing.playscore"; "corrupt.playscore"; "midi.playscore"]
       None false;
     ret (last_failure rcs)) disk
  ∧ last_failure [0; 4; 2; 0] = 2
  ∧ (last_failure [0; 0] = 0 <-> Forall (fun rc => rc = 0) [0; 0]).
Proof.
  split; [|split].
  - apply (@exit_status_last_failure (libs true)).
  - reflexivity.
  - apply (@exit_status_last_failure (libs true) [] None false disk).
Defined.

Lemma merge_overwrite_guard_first_witness :
  @merge_files (libs false) ["corrupt.playscore"; "badmidi.playscore"]
    "old.musicxml" false disk = (disk, Ok 0)
  ∧ @merge_files (libs true) [] "old.musicxml" false disk = (disk, Ok 0).
Proof.
  split.
  - apply (@merge_overwrite_guard_first (libs false)). reflexivity.
  - apply (@merge_overwrite_guard_first (libs true)). reflexivity.
Defined.

End Examples.

(** * Further properties of the program *)

Section Conversion.
Context `{ExternalLibs}.

Lemma first_match_Some {A B} (f : A -> option B) (l : list A) (y : B) :
  first_match f l = Some y -> exists x, x ∈ l ∧ f x = Some y.
Proof.
  induction l as [|x l IH]; [done|]. simpl.
  destruct (f x) as [y'|] eqn:Hx.
  - intros [= <-]. exists x. split; [by left | done].
  - intros Hl. destruct (IH Hl) as (x' & Hin & Hx'). exists x'. split; [by right | done].
Qed.

(** A payload classified as MusicXML is the content of an entry of the
    archive whose name ends in .xml, and it passes the root test. *)
Lemma inspect_DirectMusicXML z b :
  inspect z = DirectMusicXML b ->
  is_musicxml_bytes b = true
  ∧ exists name, name ∈ namelist z ∧ entry_bytes z name = Some b
      ∧ endswith (lower name) ".xml" = true.
Proof.
  rewrite inspect_unfold. unfold entry_bytes.
  destruct (bool_decide ("doc.xml" ∈ namelist z)) eqn:Hx.
  - apply bool_decide_eq_true in Hx.
    destruct (NameToInfo z !! "doc.xml") as [b'|] eqn:Hb.
    + destruct (is_musicxml_bytes b') eqn:Hm.
      * intros [= <-]. split; [done|]. by exists "doc.xml".
      * clear Hb Hm. revert b.
        assert (forall b, (if bool_decide ("doc.mid" ∈ namelist z)
            then match NameToInfo z !! "doc.mid" with
                 | Some mb => MidiPayload mb
                 | None => Unrecognized
                 end
            else match first_match (musicxml_entry z) (namelist z) with
                 | Some b0 => DirectMusicXML b0
                 | None => Unrecognized
                 end) = DirectMusicXML b ->
          first_match (musicxml_entry z) (namelist z) = Some b) as Htail.
        { intros b. destruct (bool_decide _).
          - by destruct (NameToInfo z !! "doc.mid").
          - destruct (first_match _ _); [by intros [= <-] | done]. }
        intros b Hb. apply Htail, first_match_Some in Hb as (name & Hin & Hname).
        unfold musicxml_entry, entry_bytes in Hname.
        destruct (endswith (lower name) ".xml") eqn:He; [|done].
        destruct (NameToInfo z !! name) as [b1|] eqn:Hb1; [|done].
        destruct (is_musicxml_bytes b1) eqn:Hm1; [|done].
        injection Hname as <-. eauto.
    + destruct (bool_decide ("doc.mid" ∈ namelist z)).
      * by destruct (NameToInfo z !! "doc.mid").
      * destruct (first_match (musicxml_entry z) (namelist z)) as [b0|] eqn:Hf; [|done].
        intros [= <-]. apply first_match_Some in Hf as (name & Hin & Hname).
        unfold musicxml_entry, entry_bytes in Hname.
        destruct (endswith (lower name) ".xml") eqn:He; [|done].
        destruct (NameToInfo z !! name) as [b1|] eqn:Hb1; [|done].
        destruct (is_musicxml_bytes b1) eqn:Hm1; [|done].
        injection Hname as <-. eauto.
  - destruct (bool_decide ("doc.mid" ∈ namelist z)).
    + by destruct (NameToInfo z !! "doc.mid").
    + destruct (first_match (musicxml_entry z) (namelist z)) as [b0|] eqn:Hf; [|done].
      intros [= <-]. apply first_match_Some in Hf as (name & Hin & Hname).
      unfold musicxml_entry, entry_bytes in Hname.
      destruct (endswith (lower name) ".xml") eqn:He; [|done].
      destruct (NameToInfo z !! name) as [b1|] eqn:Hb1; [|done].
      destruct (is_musicxml_bytes b1) eqn:Hm1; [|done].
      injection Hname as <-. eauto.
Qed.

(** Every way a classified payload can be handled: nothing changed (a
    failure code, or the exception of a MusicXML payload whose output
    cannot be opened), or one path written and 0. *)
Lemma convert_classified_cases out c fs fs1 r :
  convert_classified out c fs = (fs1, r) ->
  (fs1 = fs
   ∧ (r = Ok 3 ∧ (exists mb, c = MidiPayload mb)
      ∨ r = Ok 4 ∧ c = Unrecognized
      ∨ exists e b, r = Raise e ∧ c = DirectMusicXML b
          ∧ can_write fs out = false))
  ∨ (exists target x,
       r = Ok 0 ∧ can_write fs target = true
       ∧ fs1 = FS (<[target := File x]> (files fs)) (temps fs)
       ∧ match c with
         | DirectMusicXML b => target = out ∧ x = b
         | MidiPayload mb =>
             target = m21_written_path out ∧ music21_installed = true
             ∧ exists s, m21_parse ".mid" mb = Some s ∧ m21_musicxml s = Some x
         | Unrecognized => False
         end).
Proof.
  destruct c as [b|mb|]; simpl.
  - unfold bind, ret. destruct (can_write fs out) eqn:Hw.
    + rewrite write_bytes_Ok by done. intros [= <- <-].
      right. by exists out, b.
    + destruct (write_bytes_Raise out b fs Hw) as (e & -> & _).
      intros [= <- <-]. left. split; [done|]. right. right. by exists e, b.
  - unfold bind. rewrite convert_mid_to_musicxml_spec.
    destruct music21_installed; [|intros [= <- <-]; left; eauto 6].
    destruct (m21_parse ".mid" mb) as [s|] eqn:Hs; [|intros [= <- <-]; left; eauto 6].
    destruct (m21_musicxml s) as [x|] eqn:Hx; [|intros [= <- <-]; left; eauto 6].
    destruct (can_write fs (m21_written_path out)) eqn:Hw; intros [= <- <-].
    + right. exists (m21_written_path out), x. repeat split; eauto.
    + left. eauto 6.
  - intros [= <- <-]. left. eauto 6.
Qed.

(** Every way a call of [process_single_file] can end: nothing changed
    (a failure code, the skip of an existing output, or the exception
    of a write that cannot open the output), or one path written, the
    output or the one music21 makes of it, and 0. *)
Lemma process_single_file_cases fs inp out ow fs1 r :
  process_single_file inp out ow fs = (fs1, r) ->
  (fs1 = fs
   ∧ (r = Ok 2 ∨ r = Ok 3 ∨ r = Ok 4
      ∨ r = Ok 0 ∧ isfile fs inp = true ∧ exists_ fs out = true ∧ ow = false
      ∨ exists e, r = Raise e ∧ can_write fs out = false
          ∧ exists_ fs out && negb ow = false))
  ∨ (exists target x,
       r = Ok 0 ∧ isfile fs inp = true ∧ exists_ fs out && negb ow = false
       ∧ (target = out ∨ target = m21_written_path out)
       ∧ can_write fs target = true
       ∧ fs1 = FS (<[target := File x]> (files fs)) (temps fs)).
Proof.
  destruct (isfile fs inp) eqn:Hf.
  2:{ rewrite process_single_file_not_found by done. intros [= <- <-]. left. eauto. }
  destruct (exists_ fs out && negb ow) eqn:Hgo.
  { unfold process_single_file. rewrite Hf, Hgo. simpl. intros [= <- <-].
    apply andb_prop in Hgo as [Hout How]. apply negb_true_iff in How.
    left. split; [done|]. do 3 right. left. done. }
  pose proof Hf as Hf'. apply isfile_lookup in Hf' as [c Hc].
  destruct (unzip c) as [z|] eqn:Hz.
  2:{ rewrite (process_single_file_corrupt fs inp out ow c) by done.
      intros [= <- <-]. left. eauto. }
  rewrite (process_single_file_inspect fs inp out ow c z) by done.
  intros Hcc. apply convert_classified_cases in Hcc
    as [[-> [[-> _]|[[-> _]|(e & b & -> & _ & Hw)]]]
       |(target & x & -> & Hw & -> & Hx)].
  - left. split; [done|]. right. by left.
  - left. split; [done|]. do 2 right. by left.
  - left. split; [done|]. do 4 right. by exists e.
  - right. exists target, x. repeat split; try done.
    destruct (inspect z) as [b|mb|]; [left|right|done]; tauto.
Qed.

(** X1. A conversion that was not skipped and returned 0 has written
    one path, and nothing else has changed.  When the archive holds
    MusicXML the path is the output path and what it holds is the
    payload itself (the bytes of an entry whose name ends in .xml and
    that passes the root test); otherwise the path is the one music21
    makes of the output path and what it holds is music21's MusicXML
    for the score it parsed from doc.mid. *)
Theorem successful_conversion_output fs inp out ow fs1 :
  exists_ fs out && negb ow = false ->
  process_single_file inp out ow fs = (fs1, Ok 0) ->
  exists c z target x,
    files fs !! inp = Some (File c) ∧ unzip c = Some z
    ∧ fs1 = FS (<[target := File x]> (files fs)) (temps fs)
    ∧ match inspect z with
      | DirectMusicXML b =>
          target = out ∧ x = b ∧ is_musicxml_bytes b = true
          ∧ exists name, name ∈ namelist z ∧ entry_bytes z name = Some b
              ∧ endswith (lower name) ".xml" = true
      | MidiPayload mb =>
          target = m21_written_path out
          ∧ exists s, m21_parse ".mid" mb = Some s ∧ m21_musicxml s = Some x
      | Unrecognized => False
      end.
Proof.
  intros Hgo Hrun.
  destruct (isfile fs inp) eqn:Hf.
  2:{ by rewrite process_single_file_not_found in Hrun. }
  apply isfile_lookup in Hf as [c Hc].
  destruct (unzip c) as [z|] eqn:Hz.
  2:{ by rewrite (process_single_file_corrupt fs inp out ow c) in Hrun. }
  rewrite (process_single_file_inspect fs inp out ow c z) in Hrun by done.
  apply convert_classified_cases in Hrun
    as [[_ [[? _]|[[? _]|(e & b & ? & _)]]]|(target & x & _ & _ & -> & Hx)];
    try done.
  exists c, z, target, x. split; [done|]. split; [done|]. split; [done|].
  destruct (inspect z) as [b|mb|] eqn:Hi; [|tauto|done].
  destruct Hx as [-> ->]. split; [done|]. split; [done|].
  by apply inspect_DirectMusicXML.
Qed.


(** X3. An output that cannot be opened for writing, a directory or a
    path the system refuses, is treated differently by the two paths
    of [process_single_file].  With a MusicXML payload the exception of
    [open] leaves the function, the write being outside any handler;
    with a MIDI payload the same failure, at the path music21 writes,
    is caught and becomes code 3.  Either way nothing has changed. *)
Theorem unwritable_output_raises_or_fails fs inp out ow c z :
  files fs !! inp = Some (File c) -> unzip c = Some z ->
  exists_ fs out && negb ow = false ->
  match inspect z with
  | DirectMusicXML b =>
      can_write fs out = false ->
      exists e, process_single_file inp out ow fs = (fs, Raise e)
        ∧ (e = IsADirectoryError ∧ files fs !! out = Some Dir
           ∨ exists f, e = open_exn f ∧ open_refused out = Some f)
  | MidiPayload mb =>
      can_write fs (m21_written_path out) = false ->
      process_single_file inp out ow fs = (fs, Ok 3)
  | Unrecognized => process_single_file inp out ow fs = (fs, Ok 4)
  end.
Proof.
  intros Hc Hz Hgo.
  rewrite (process_single_file_inspect fs inp out ow c z) by done.
  destruct (inspect z) as [b|mb|]; simpl.
  - intros Hw. unfold bind.
    destruct (write_bytes_Raise out b fs Hw) as (e & -> & He). by exists e.
  - intros Hw. unfold bind. rewrite convert_mid_to_musicxml_spec, Hw.
    destruct music21_installed; [|done].
    destruct (m21_parse ".mid" mb) as [s|]; [|done].
    by destruct (m21_musicxml s).
  - done.
Qed.

End Conversion.

Section Resolution.
Context `{ExternalLibs}.

Lemma ZipFile_missing fs path :
  files fs !! path = None -> ZipFile path fs = (fs, Raise FileNotFoundError).
Proof. intros Hf. unfold ZipFile. by rewrite Hf. Qed.

Lemma ZipFile_directory fs path :
  files fs !! path = Some Dir -> ZipFile path fs = (fs, Raise IsADirectoryError).
Proof. intros Hf. unfold ZipFile. by rewrite Hf. Qed.

(** What [parse_playscore_to_score] does, by what is at the path. *)
Lemma parse_playscore_to_score_cases fs path :
  parse_playscore_to_score path fs =
    if music21_installed then
      match files fs !! path with
      | None => (fs, Raise FileNotFoundError)
      | Some Dir => (fs, Raise IsADirectoryError)
      | Some (File c) =>
          match unzip c with
          | None => (fs, Ok None)
          | Some z =>
              match inspect z with
              | DirectMusicXML b =>
                  (fs, match m21_parse ".musicxml" b with
                       | Some s => Ok (Some s)
                       | None => Raise Music21Error
                       end)
              | MidiPayload mb =>
                  (fs, match m21_parse ".mid" mb with
                       | Some s => Ok (Some s)
                       | None => Raise Music21Error
                       end)
              | Unrecognized => (fs, Ok None)
              end
          end
      end
    else (fs, Ok None).
Proof.
  destruct music21_installed eqn:Hm21.
  2:{ unfold parse_playscore_to_score. by rewrite Hm21. }
  destruct (files fs !! path) as [[|c]|] eqn:Hf.
  - unfold parse_playscore_to_score. rewrite Hm21.
    change (negb true) with false. cbv iota.
    unfold try_except. by rewrite (bind_Raise _ _ _ _ _ (ZipFile_directory _ _ Hf)).
  - destruct (unzip c) as [z|] eqn:Hz.
    + rewrite (parse_playscore_to_score_inspect fs path c z) by done.
      destruct (inspect z) as [b|mb|]; simpl; [| |done];
        unfold bind; rewrite parse_through_tempfile_spec;
        by destruct (m21_parse _ _).
    + by apply (parse_playscore_to_score_corrupt fs path c).
  - unfold parse_playscore_to_score. rewrite Hm21.
    change (negb true) with false. cbv iota.
    unfold try_except. by rewrite (bind_Raise _ _ _ _ _ (ZipFile_missing _ _ Hf)).
Qed.

(** What [extract_musicxml_bytes_from_playscore] does, likewise. *)
Lemma extract_musicxml_bytes_cases fs path :
  extract_musicxml_bytes_from_playscore path fs =
    match files fs !! path with
    | None => (fs, Raise FileNotFoundError)
    | Some Dir => (fs, Raise IsADirectoryError)
    | Some (File c) =>
        match unzip c with
        | None => (fs, Ok None)
        | Some z => (fs, Ok (extract_classified (inspect z)))
        end
    end.
Proof.
  destruct (files fs !! path) as [[|c]|] eqn:Hf.
  - unfold extract_musicxml_bytes_from_playscore, try_except.
    by rewrite (bind_Raise _ _ _ _ _ (ZipFile_directory _ _ Hf)).
  - destruct (unzip c) as [z|] eqn:Hz.
    + by apply (extract_musicxml_bytes_inspect fs path c).
    + unfold extract_musicxml_bytes_from_playscore, try_except, bind at 1, ZipFile.
      by rewrite Hf, Hz.
  - unfold extract_musicxml_bytes_from_playscore, try_except.
    by rewrite (bind_Raise _ _ _ _ _ (ZipFile_missing _ _ Hf)).
Qed.

(** When doc.mid is in the archive, only doc.xml can be the MusicXML
    payload: the other .xml entries are not looked at. *)
Lemma inspect_DirectMusicXML_doc_mid z b :
  inspect z = DirectMusicXML b -> "doc.mid" ∈ namelist z ->
  entry_bytes z "doc.xml" = Some b.
Proof.
  rewrite inspect_unfold. unfold entry_bytes. intros Hi Hmid.
  rewrite (bool_decide_eq_true_2 _ Hmid) in Hi.
  destruct (bool_decide ("doc.xml" ∈ namelist z)).
  - destruct (NameToInfo z !! "doc.xml") as [b'|].
    + destruct (is_musicxml_bytes b'); [by injection Hi as <-|].
      by destruct (NameToInfo z !! "doc.mid").
    + by destruct (NameToInfo z !! "doc.mid").
  - by destruct (NameToInfo z !! "doc.mid").
Qed.

(** X5. The archives that single conversion cannot use are those the
    merge engine skips: for an input that is a regular file, and with
    music21 installed, [process_single_file] (not cut short by an
    existing output) returns 2 or 4 exactly when
    [parse_playscore_to_score] returns None. *)
Theorem conversion_and_resolution_agree fs path out ow c :
  files fs !! path = Some (File c) ->
  exists_ fs out && negb ow = false ->
  music21_installed = true ->
  ((process_single_file path out ow fs).2 = Ok 2
   ∨ (process_single_file path out ow fs).2 = Ok 4)
  <-> (parse_playscore_to_score path fs).2 = Ok None.
Proof.
  intros Hf Hgo Hm21. rewrite parse_playscore_to_score_cases, Hm21, Hf.
  destruct (unzip c) as [z|] eqn:Hz.
  2:{ rewrite (process_single_file_corrupt fs path out ow c) by done. simpl. tauto. }
  rewrite (process_single_file_inspect fs path out ow c z) by done.
  destruct (convert_classified out (inspect z) fs) as [fs1 r] eqn:Hcc.
  apply convert_classified_cases in Hcc
    as [[_ [[-> [mb ->]]|[[-> ->]|(e & b & -> & -> & _)]]]
       |(target & x & -> & _ & _ & Hx)]; simpl.
  - destruct (m21_parse ".mid" mb); simpl; split; [intros [|] | | intros [|] |]; done.
  - tauto.
  - destruct (m21_parse ".musicxml" b); simpl; split; [intros [|] | | intros [|] |]; done.
  - destruct (inspect z) as [b|mb|]; [| |done].
    + destruct (m21_parse ".musicxml" b); simpl; split; [intros [|] | | intros [|] |]; done.
    + destruct (m21_parse ".mid" mb); simpl; split; [intros [|] | | intros [|] |]; done.
Qed.

(** X7. What [extract_musicxml_bytes_from_playscore] returns is sound:
    bytes it returns pass the root test and are the content of an
    entry of the archive whose name ends in .xml, the entry doc.xml
    when the archive also holds doc.mid; and the call changes
    nothing. *)
Theorem extracted_bytes_are_musicxml fs path fs1 b :
  extract_musicxml_bytes_from_playscore path fs = (fs1, Ok (Some b)) ->
  fs1 = fs ∧ is_musicxml_bytes b = true
  ∧ exists c z name,
      files fs !! path = Some (File c) ∧ unzip c = Some z
      ∧ name ∈ namelist z ∧ entry_bytes z name = Some b
      ∧ endswith (lower name) ".xml" = true
      ∧ ("doc.mid" ∈ namelist z -> entry_bytes z "doc.xml" = Some b).
Proof.
  rewrite extract_musicxml_bytes_cases.
  destruct (files fs !! path) as [[|c]|] eqn:Hf; [done| |done].
  destruct (unzip c) as [z|] eqn:Hz; [|done].
  destruct (inspect z) as [b'| |] eqn:Hi; [|done|done].
  intros [= <- <-]. split; [done|].
  destruct (inspect_DirectMusicXML z b' Hi) as (Hm & name & Hin & Hb & He).
  split; [done|]. exists c, z, name. repeat split; try done.
  by apply inspect_DirectMusicXML_doc_mid.
Qed.



End Resolution.

Section MergeEngine.
Context `{ExternalLibs}.

Lemma merge_files_skipped fs inputs out :
  exists_ fs out = true -> merge_files inputs out false fs = (fs, Ok 0).
Proof. intros Hout. unfold merge_files. by rewrite Hout. Qed.

(** The first loop never changes the file system; it ends with the
    sources that resolved, in input order, or with the exception of the
    first input whose resolution raises. *)
Lemma parse_inputs_cases fs inputs parsed_scores fs1 r :
  parse_inputs inputs parsed_scores fs = (fs1, r) ->
  fs1 = fs
  ∧ (r = Ok (parsed_scores ++ omap (resolved fs) inputs)%list
     ∨ exists e f, r = Raise e ∧ f ∈ inputs
         ∧ (parse_playscore_to_score f fs).2 = Raise e).
Proof.
  revert parsed_scores. induction inputs as [|f inputs IH]; intros acc; simpl.
  - intros [= <- <-]. split; [done|]. left. by rewrite app_nil_r.
  - pose proof (read_only_parse_playscore_to_score f fs) as [Hfs _].
    unfold bind, resolved at 1.
    destruct (parse_playscore_to_score f fs) as [fs' r'] eqn:Hp.
    simpl in Hfs. subst fs'. destruct r' as [[s|]|e]; simpl.
    + intros Hrest. apply IH in Hrest as [-> [->|(e & f' & -> & Hin & He)]].
      * split; [done|]. left. by rewrite <- app_assoc.
      * split; [done|]. right. exists e, f'. split; [done|]. split; [by right|done].
    + intros Hrest. apply IH in Hrest as [-> [->|(e & f' & -> & Hin & He)]].
      * split; [done|]. by left.
      * split; [done|]. right. exists e, f'. split; [done|]. split; [by right|done].
    + intros [= <- <-]. split; [done|]. right. exists e, f.
      split; [done|]. split; [by left|]. by rewrite Hp.
Qed.

(** An input that resolves to nothing can be struck from the list. *)
Lemma parse_inputs_skip fs l1 f l2 parsed_scores :
  parse_playscore_to_score f fs = (fs, Ok None) ->
  parse_inputs (l1 ++ f :: l2) parsed_scores fs
  = parse_inputs (l1 ++ l2) parsed_scores fs.
Proof.
  intros Hf. revert parsed_scores. induction l1 as [|a l1 IH]; intros acc; simpl.
  - by rewrite (bind_Ok _ _ _ _ _ Hf).
  - pose proof (read_only_parse_playscore_to_score a fs) as [Hfs _].
    unfold bind. destruct (parse_playscore_to_score a fs) as [fs' [[s|]|e]].
    + simpl in Hfs. subst fs'. apply IH.
    + simpl in Hfs. subst fs'. apply IH.
    + done.
Qed.

(** Writing the combined score: 0 and the file, or 5 and no change. *)
Lemma write_combined_cases s out fs :
  try_except Exception (stream_write s out;; ret 0) (ret 5) fs =
    match m21_musicxml s with
    | Some x =>
        if can_write fs (m21_written_path out) then
          (FS (<[m21_written_path out := File x]> (files fs)) (temps fs), Ok 0)
        else (fs, Ok 5)
    | None => (fs, Ok 5)
    end.
Proof.
  unfold try_except, bind, stream_write.
  destruct (m21_musicxml s) as [x|]; [|done].
  destruct (can_write fs (m21_written_path out)) eqn:Hw.
  - by rewrite write_bytes_Ok.
  - by destruct (write_bytes_Raise _ x fs Hw) as (e & -> & _).
Qed.

Lemma flat_map_contribution_length (l : list stream) :
  List.length (flat_map contribution l) = sum_list (parts_added <$> l).
Proof.
  induction l as [|s l IH]; [done|]. simpl.
  rewrite length_app, IH. f_equal. apply contribution_length.
Qed.

(** Every way a call of [merge_files] can end. *)
Lemma merge_files_cases fs inputs out ow fs1 r :
  merge_files inputs out ow fs = (fs1, r) ->
  (fs1 = fs
   ∧ (r = Ok 0 ∧ exists_ fs out = true ∧ ow = false
      ∨ r = Ok 3 ∨ r = Ok 4 ∨ r = Ok 5
      ∨ exists e f, r = Raise e ∧ f ∈ inputs
          ∧ (parse_playscore_to_score f fs).2 = Raise e))
  ∨ (exists x,
       r = Ok 0 ∧ exists_ fs out && negb ow = false
       ∧ can_write fs (m21_written_path out) = true
       ∧ m21_musicxml
           (m21_score (flat_map contribution (omap (resolved fs) inputs).*2))
         = Some x
       ∧ fs1 = FS (<[m21_written_path out := File x]> (files fs)) (temps fs)).
Proof.
  destruct (exists_ fs out && negb ow) eqn:Hgo.
  { unfold merge_files. rewrite Hgo. intros [= <- <-].
    apply andb_prop in Hgo as [Hout How]. apply negb_true_iff in How.
    left. split; [done|]. by left. }
  destruct music21_installed eqn:Hm21.
  2:{ unfold merge_files. rewrite Hgo, Hm21. intros [= <- <-].
      left. split; [done|]. right. by left. }
  rewrite merge_files_started by done. unfold bind at 1.
  destruct (parse_inputs inputs [] fs) as [fs' r'] eqn:Hp.
  apply parse_inputs_cases in Hp as [-> [->|(e & f & -> & Hin & He)]].
  2:{ intros [= <- <-]. left. split; [done|]. do 4 right. eauto. }
  simpl.
  destruct (omap (resolved fs) inputs) as [|p parsed] eqn:Hres.
  { intros [= <- <-]. left. split; [done|]. do 2 right. by left. }
  rewrite write_combined_cases.
  destruct (m21_musicxml _) as [x|] eqn:Hx.
  2:{ intros [= <- <-]. left. split; [done|]. do 3 right. by left. }
  destruct (can_write fs (m21_written_path out)) eqn:Hw; intros [= <- <-].
  - right. by exists x.
  - left. split; [done|]. do 3 right. by left.
Qed.

(** X10. An exception leaves [merge_files] only when the resolution of
    one of its inputs raises it; nothing was written then.  A failure
    to serialise or to write the combined score never escapes. *)
Theorem merge_raises_with_resolution_only fs inputs out ow fs1 e :
  merge_files inputs out ow fs = (fs1, Raise e) ->
  fs1 = fs
  ∧ exists f, f ∈ inputs ∧ (parse_playscore_to_score f fs).2 = Raise e.
Proof.
  intros Hrun. apply merge_files_cases in Hrun
    as [[-> [[? _]|[?|[?|[?|(e' & f & [= <-] & Hin & He)]]]]]|(x & ? & _)];
    try done.
  eauto.
Qed.



(** X13. The second loop keeps [part_count] equal to the number of
    elements appended to [combined]: each source adds its parts when it
    has some and itself otherwise, so a non-empty list of sources never
    gives an empty score. *)
Theorem part_count_counts_parts (parsed_scores : list (string * stream)) :
  let '(combined, part_count) := combine parsed_scores ([], 0%nat) in
  combined = flat_map contribution parsed_scores.*2
  ∧ part_count = List.length combined
  ∧ part_count = sum_list (parts_added <$> parsed_scores.*2)
  ∧ (parsed_scores ≠ [] -> (0 < part_count)%nat).
Proof.
  rewrite combine_spec. simpl.
  split; [done|]. split; [done|]. split; [apply flat_map_contribution_length|].
  destruct parsed_scores as [|[f s] rest]; [done|]. intros _. simpl.
  rewrite length_app, contribution_length.
  destruct (m21_parts s) as [ps|]; [|lia].
  destruct (0 <? List.length ps)%nat eqn:Hps; [|lia].
  apply Nat.ltb_lt in Hps. lia.
Qed.

(** X14. With overwrite off and an output path that music21 writes
    under that very name, as it does a path ending in .musicxml, a
    merge that returned 0 returns 0 again when repeated and leaves the
    file system, its output included, unchanged. *)
Theorem merge_repeats_without_overwrite fs inputs out fs1 :
  m21_written_path out = out ->
  merge_files inputs out false fs = (fs1, Ok 0) ->
  merge_files inputs out false fs1 = (fs1, Ok 0).
Proof.
  intros Hsame Hrun. apply merge_files_skipped.
  apply merge_files_cases in Hrun
    as [[-> [[_ [Hout _]]|[?|[?|[?|(e & f & ? & _)]]]]]|(x & _ & _ & _ & _ & ->)];
    try done.
  unfold exists_. simpl. by rewrite Hsame, lookup_insert_eq.
Qed.

(** X15. An input that is a corrupt archive or holds no usable payload
    is skipped wherever it stands in the list: the call does exactly
    what it does without it, whatever the other inputs are. *)
Theorem unresolvable_input_is_skipped fs l1 f l2 out ow :
  unresolvable fs f ->
  merge_files (l1 ++ f :: l2) out ow fs = merge_files (l1 ++ l2) out ow fs.
Proof.
  intros Hf. apply parse_playscore_to_score_unresolvable in Hf.
  unfold merge_files, bind. by rewrite (parse_inputs_skip fs l1 f l2 [] Hf).
Qed.

End MergeEngine.

Section CallersProperties.
Context `{ExternalLibs}.

Lemma process_single_file_keeps_files fs inp out ow fs1 r p :
  process_single_file inp out ow fs = (fs1, r) ->
  isfile fs p = true -> isfile fs1 p = true.
Proof.
  intros Hrun. apply process_single_file_cases in Hrun
    as [[-> _]|(target & x & _ & _ & _ & _ & _ & ->)]; [done|].
  unfold isfile. simpl. rewrite lookup_insert. by case_decide.
Qed.

Lemma process_single_file_overwrite_success fs inp out fs1 :
  m21_written_path out = out ->
  process_single_file inp out true fs = (fs1, Ok 0) ->
  isfile fs1 out = true.
Proof.
  intros Hsame Hrun. apply process_single_file_cases in Hrun
    as [[-> [?|[?|[?|[(_ & _ & _ & ?)|(e & ? & _)]]]]]
       |(target & x & _ & _ & _ & Htarget & _ & ->)];
    try done.
  assert (target = out) as -> by (destruct Htarget; congruence).
  unfold isfile. simpl. by rewrite lookup_insert_eq.
Qed.

(** The output path of an upload is written by music21 under that very
    name. *)
Lemma upload_output_written_as_named stem :
  m21_written_path (stem ++ ".musicxml") = stem ++ ".musicxml".
Proof. apply m21_written_path_musicxml, endswith_app. Qed.

Lemma main_loop_no_output files todo output ow exit_code fs :
  List.length files ≠ 1%nat ->
  main_loop files todo output ow exit_code fs
  = main_loop files todo None ow exit_code fs.
Proof.
  intros Hlen. apply Nat.eqb_neq in Hlen.
  revert exit_code fs. induction todo as [|f todo IH]; intros ec fs; [done|].
  cbn [main_loop]. rewrite Hlen, andb_false_r. simpl.
  unfold bind. destruct (process_single_file f _ ow fs) as [fs1 [rc|e]]; [|done].
  apply IH.
Qed.

(** X16. The output option of the command line counts only when there
    is exactly one input: that input is converted to the given path and
    the status is the code of the conversion.  With any other number of
    inputs the option is ignored and each input goes to its default
    output path. *)
Theorem output_option_needs_single_input files output ow fs :
  (List.length files ≠ 1%nat ->
     main_batch files output ow fs = main_batch files None ow fs)
  ∧ (forall f o, files = [f] -> output = Some o -> o ≠ "" ->
       main_batch files output ow fs = process_single_file f o ow fs).
Proof.
  split.
  - intros Hlen. by apply main_loop_no_output.
  - intros f o -> -> Ho. unfold main_batch. cbn [main_loop truthy List.length].
    apply String.eqb_neq in Ho. rewrite Ho. simpl. unfold bind.
    destruct (process_single_file f o ow fs) as [fs1 [rc|e]]; [|done].
    unfold ret. do 2 f_equal. by destruct (Z.eqb_spec rc 0) as [->|].
Qed.



Section MainPaths.
Variable merged_output : string -> string.


End MainPaths.

Section UploadPaths.
Variable tmp_output : string -> string.

Lemma convert_outputs_files saved outputs fs fs1 outs :
  Forall (fun o => isfile fs o = true) outputs ->
  convert_outputs tmp_output saved outputs fs = (fs1, Ok outs) ->
  Forall (fun o => isfile fs1 o = true) outs.
Proof.
  revert outputs fs. induction saved as [|inp saved IH]; intros outputs fs Hfiles.
  - by intros [= <- <-].
  - cbn [convert_outputs]. unfold bind.
    destruct (process_single_file inp _ true fs) as [fs' [rc|e]] eqn:Hrun; [|done].
    apply IH.
    assert (Forall (fun o => isfile fs' o = true) outputs) as Hkept.
    { eapply Forall_impl; [exact Hfiles|]. intros o Ho.
      by eapply process_single_file_keeps_files. }
    destruct (Z.eqb_spec rc 0) as [->|]; simpl; [|done].
    destruct (exists_ fs' (tmp_output inp ++ ".musicxml")); [|done].
    apply Forall_app. split; [done|]. constructor; [|done].
    eapply process_single_file_overwrite_success; [|exact Hrun].
    apply upload_output_written_as_named.
Qed.

(** X18. The loop of app.py that converts the uploads: its test of
    [os.path.exists(out)] never decides anything, for a conversion that
    returns 0 has its output; the list it builds holds the output path
    of each upload whose conversion returned 0, in upload order; and
    when the loop ends every path of the list is a regular file, a
    later conversion never removing what an earlier one wrote. *)
Theorem upload_outputs_are_files saved outputs fs :
  convert_outputs tmp_output saved outputs fs
  = convert_successes tmp_output saved outputs fs
  ∧ forall fs1 outs,
      convert_outputs tmp_output saved [] fs = (fs1, Ok outs) ->
      Forall (fun o => isfile fs1 o = true) outs.
Proof.
  split.
  - revert outputs fs. induction saved as [|inp saved IH]; intros outputs fs; [done|].
    cbn [convert_outputs convert_successes]. unfold bind.
    destruct (process_single_file inp _ true fs) as [fs' [rc|e]] eqn:Hrun; [|done].
    rewrite <- IH. destruct (Z.eqb_spec rc 0) as [->|]; simpl; [|done].
    apply process_single_file_success in Hrun as [_ Hout].
    by rewrite (Hout (upload_output_written_as_named _)).
  - intros fs1 outs. by apply convert_outputs_files.
Qed.

End UploadPaths.

End CallersProperties.


(** * The further properties at work *)

Module MoreExamples.
Import Sample.

Lemma successful_conversion_output_witness :
  exists c z target x,
    files disk !! "midi.playscore" = Some (File c) ∧ @unzip (libs true) c = Some z
    ∧ (@process_single_file (libs true) "midi.playscore" "out" false disk).1
      = FS (<[target := File x]> (files disk)) (temps disk)
    ∧ match @inspect (libs true) z with
      | DirectMusicXML b =>
          target = "out" ∧ x = b ∧ @is_musicxml_bytes (libs true) b = true
          ∧ exists name, name ∈ @namelist z ∧ @entry_bytes z name = Some b
              ∧ endswith (lower name) ".xml" = true
      | MidiPayload mb =>
          target = @m21_written_path (libs true) "out"
          ∧ exists s, @m21_parse (libs true) ".mid" mb = Some s
                      ∧ @m21_musicxml (libs true) s = Some x
      | Unrecognized => False
      end.
Proof.
  apply (@successful_conversion_output (libs true) disk "midi.playscore"
           "out" false); vm_compute; reflexivity.
Defined.


Lemma unwritable_output_raises_or_fails_witness :
  (exists e,
     @process_single_file (libs true) "direct.playscore" "nodir/out.musicxml" false disk
     = (disk, Raise e)
     ∧ (e = IsADirectoryError ∧ files disk !! "nodir/out.musicxml" = Some Dir
        ∨ exists f, e = open_exn f
            ∧ @open_refused (libs true) "nodir/out.musicxml" = Some f))
  ∧ @process_single_file (libs true) "midi.playscore" "nodir/out.musicxml" false disk
    = (disk, Ok 3).
Proof.
  split.
  - exact (@unwritable_output_raises_or_fails (libs true) disk "direct.playscore"
             "nodir/out.musicxml" false (B "PK:direct")
             [("doc.xml", B "<score-partwise/>")] eq_refl eq_refl eq_refl eq_refl).
  - exact (@unwritable_output_raises_or_fails (libs true) disk "midi.playscore"
             "nodir/out.musicxml" false (B "PK:midi")
             [("doc.xml", B "<foo/>"); ("doc.mid", B "MThd:ok")]
             eq_refl eq_refl eq_refl eq_refl).
Defined.

Lemma conversion_and_resolution_agree_witness :
  ((@process_single_file (libs true) "nothing.playscore" "out.musicxml" false disk).2 = Ok 2
   ∨ (@process_single_file (libs true) "nothing.playscore" "out.musicxml" false disk).2 = Ok 4)
  <-> (@parse_playscore_to_score (libs true) "nothing.playscore" disk).2 = Ok None.
Proof.
  apply (@conversion_and_resolution_agree (libs true) disk "nothing.playscore"
           "out.musicxml" false (B "PK:nothing")); reflexivity.
Defined.

Lemma extracted_bytes_are_musicxml_witness :
  @is_musicxml_bytes (libs true) (B "<Score-Partwise xmlns='urn:m'/>") = true.
Proof.
  apply (@extracted_bytes_are_musicxml (libs true) disk "fallback.playscore" disk).
  vm_compute. reflexivity.
Defined.



Lemma merge_raises_with_resolution_only_witness :
  @merge_files (libs true) ["two.playscore"; "badmidi.playscore"; "flat.playscore"]
    "merged.musicxml" false disk = (disk, Raise Music21Error)
  ∧ exists f, f ∈ ["two.playscore"; "badmidi.playscore"; "flat.playscore"]
      ∧ (@parse_playscore_to_score (libs true) f disk).2 = Raise Music21Error.
Proof.
  assert (@merge_files (libs true)
            ["two.playscore"; "badmidi.playscore"; "flat.playscore"]
            "merged.musicxml" false disk = (disk, Raise Music21Error)) as Hrun
    by (vm_compute; reflexivity).
  split; [exact Hrun|].
  exact (proj2 (@merge_raises_with_resolution_only (libs true) disk _
                  "merged.musicxml" false disk Music21Error Hrun)).
Defined.



Lemma part_count_counts_parts_witness :
  let '(combined, part_count) :=
    @combine (libs true)
      [("two", SScore [SPart "A1"; SPart "A2"]); ("flat", SScore [])] ([], 0%nat) in
  combined = [SPart "A1"; SPart "A2"; SScore []] ∧ part_count = 3%nat.
Proof.
  pose proof (@part_count_counts_parts (libs true)
    [("two", SScore [SPart "A1"; SPart "A2"]); ("flat", SScore [])]) as Hcount.
  destruct (@combine (libs true) _ _) as [combined part_count].
  destruct Hcount as (-> & _ & -> & _). split; reflexivity.
Defined.

Lemma merge_repeats_without_overwrite_witness :
  let first := @merge_files (libs true) ["two.playscore"] "merged.musicxml" false disk in
  @merge_files (libs true) ["two.playscore"] "merged.musicxml" false first.1
  = (first.1, Ok 0).
Proof.
  intros first. apply (@merge_repeats_without_overwrite (libs true) disk).
  - vm_compute. reflexivity.
  - vm_compute. reflexivity.
Defined.

Lemma unresolvable_input_is_skipped_witness :
  @merge_files (libs true)
    (["two.playscore"] ++ "corrupt.playscore" :: ["flat.playscore"])
    "merged.musicxml" false disk
  = @merge_files (libs true) (["two.playscore"] ++ ["flat.playscore"])
      "merged.musicxml" false disk.
Proof.
  apply (@unresolvable_input_is_skipped (libs true) disk).
  exists (B "not a zip"). split; [reflexivity|]. left. reflexivity.
Defined.

Lemma output_option_needs_single_input_witness :
  @main_batch (libs true) ["direct.playscore"; "midi.playscore"]
    (Some "out.musicxml") false disk
  = @main_batch (libs true) ["direct.playscore"; "midi.playscore"] None false disk
  ∧ @main_batch (libs true) ["direct.playscore"] (Some "out.musicxml") false disk
    = @process_single_file (libs true) "direct.playscore" "out.musicxml" false disk.
Proof.
  split.
  - apply (@output_option_needs_single_input (libs true)). discriminate.
  - apply (@output_option_needs_single_input (libs true) ["direct.playscore"]
             (Some "out.musicxml") false disk); [reflexivity | reflexivity | discriminate].
Defined.


Lemma upload_outputs_are_files_witness :
  let run := @convert_outputs (libs true) (fun inp => inp)
               ["direct.playscore"; "nothing.playscore"; "midi.playscore"] [] disk in
  run.2 = Ok ["direct.playscore.musicxml"; "midi.playscore.musicxml"]
  ∧ Forall (fun o => isfile run.1 o = true)
      ["direct.playscore.musicxml"; "midi.playscore.musicxml"].
Proof.
  intros run. split; [vm_compute; reflexivity|].
  apply (@upload_outputs_are_files (libs true) (fun inp => inp)
           ["direct.playscore"; "nothing.playscore"; "midi.playscore"] [] disk).
  vm_compute. reflexivity.
Defined.

End MoreExamples.
